(** * Kotal: defaulting, validation, client adapters and reconcilers

    A shallow embedding of the Go sources of the operator:
    - the Polkadot node defaulting webhook ([Node.Default]) and the Stacks one;
    - the client adapters of Polkadot and NEAR ([Image], [Command], [Args],
      [HomeDir]);
    - the Ethereum network reconciler ([deleteRedundantNodes],
      [createArgsForClient]) and the Polkadot node reconciler ([specPVC],
      [specStatefulSet], [Reconcile]);
    - the validation stage, whose Go source is not among the files (its
      test tables are) and which is modelled from the specification.

    Go strings are [string], unsigned integers are [N], slices are lists (a
    nil slice is the empty list), Go maps are [gmap]s; reading a missing key
    of a [map[string]bool] gives [false]. *)

From Stdlib Require Import ZArith Ascii.
From stdpp Require Import gmap strings list fin_maps pretty.

Open Scope string_scope.
Open Scope list_scope.
Open Scope stdpp_scope.

(** ** Go helpers *)

Module Go.

(** [s == ""] *)
Definition isEmpty (s : string) : bool := String.eqb s "".

(** [strings.Join(elems, sep)] *)
Fixpoint Join (elems : list string) (sep : string) : string :=
  match elems with
  | [] => ""
  | [e] => e
  | e :: rest => e +:+ sep +:+ Join rest sep
  end.

(** [fmt.Sprintf("%d", n)] for an unsigned [n] *)
Definition Sprintf_d (n : N) : string := pretty n.

(** [fmt.Sprintf("%s:%d", host, port)] *)
Definition Sprintf_s_d (host : string) (port : N) : string :=
  host +:+ ":" +:+ Sprintf_d port.

(** [os.Getenv]: the process environment; an unset variable reads [""]. *)
Definition Environ := gmap string string.

Definition Getenv (env : Environ) (key : string) : string :=
  default "" (env !! key).

End Go.

(** ** Shared API types *)

Module Shared.

(** [shared.Resources]: quantities are kept as the strings the user wrote;
    [StorageClass] is a [*string]. *)
Record Resources := mkResources {
  CPU : string;
  CPULimit : string;
  Memory : string;
  MemoryLimit : string;
  Storage : string;
  StorageClass : option string
}.

Definition emptyResources : Resources :=
  mkResources "" "" "" "" "" None.

End Shared.

(** ** Polkadot API: the node and its defaulting webhook *)

Module Polkadot.
Import Shared.

Record NodeSpec := mkNodeSpec {
  Resources_ : Resources;
  SyncMode : string;
  Logging : string;
  RPC : bool;
  RPCPort : N
}.

Record Node := mkNode {
  Name : string;
  Namespace : string;
  Labels : gmap string string;
  Spec : NodeSpec
}.

(** The constants [DefaultNode...], [DefaultSyncMode],
    [DefaultLoggingVerbosity] and [DefaultRPCPort] of the package are
    declared outside the webhook file; the webhook is embedded over any
    choice of them. *)
Record Defaults := mkDefaults {
  DefaultNodeCPURequest : string;
  DefaultNodeCPULimit : string;
  DefaultNodeMemoryRequest : string;
  DefaultNodeMemoryLimit : string;
  DefaultNodeStorageRequest : string;
  DefaultSyncMode : string;
  DefaultLoggingVerbosity : string;
  DefaultRPCPort : N
}.

(** [if s == "" { s = d }] *)
Definition orDefault (s d : string) : string :=
  if Go.isEmpty s then d else s.

Definition withResources (n : Node) (r : Resources) : Node :=
  mkNode (Name n) (Namespace n) (Labels n)
    (mkNodeSpec r (SyncMode (Spec n)) (Logging (Spec n)) (RPC (Spec n))
       (RPCPort (Spec n))).

Section Defaulting.
Variable d : Defaults.

(** [func (r *Node) DefaultNodeResources()] *)
Definition DefaultNodeResources (r : Node) : Node :=
  let res := Resources_ (Spec r) in
  withResources r
    (mkResources
       (orDefault (CPU res) (DefaultNodeCPURequest d))
       (orDefault (CPULimit res) (DefaultNodeCPULimit d))
       (orDefault (Memory res) (DefaultNodeMemoryRequest d))
       (orDefault (MemoryLimit res) (DefaultNodeMemoryLimit d))
       (orDefault (Storage res) (DefaultNodeStorageRequest d))
       (StorageClass res)).

(** [func (r *Node) Default()]; the log line has no effect on the node. *)
Definition Default (r : Node) : Node :=
  let r1 := DefaultNodeResources r in
  let s := Spec r1 in
  mkNode (Name r1) (Namespace r1) (Labels r1)
    (mkNodeSpec (Resources_ s)
       (orDefault (SyncMode s) (DefaultSyncMode d))
       (orDefault (Logging s) (DefaultLoggingVerbosity d))
       (RPC s)
       (if RPC s then
          if N.eqb (RPCPort s) 0 then DefaultRPCPort d else RPCPort s
        else RPCPort s)).
End Defaulting.

(** None of the default constants is the empty value. *)
Definition defaultsSet (d : Defaults) : Prop :=
  DefaultNodeCPURequest d <> "" /\ DefaultNodeCPULimit d <> "" /\
  DefaultNodeMemoryRequest d <> "" /\ DefaultNodeMemoryLimit d <> "" /\
  DefaultNodeStorageRequest d <> "" /\ DefaultSyncMode d <> "" /\
  DefaultLoggingVerbosity d <> "" /\ DefaultRPCPort d <> 0%N.

(** Nothing is left for [Default] to fill in. *)
Definition fullySpecified (r : Node) : Prop :=
  let res := Resources_ (Spec r) in
  CPU res <> "" /\ CPULimit res <> "" /\ Memory res <> "" /\
  MemoryLimit res <> "" /\ Storage res <> "" /\
  SyncMode (Spec r) <> "" /\ Logging (Spec r) <> "" /\
  (RPC (Spec r) = true -> RPCPort (Spec r) <> 0%N).

(** The resource defaults of [defaults.go], with sample values for the
    three constants that file does not declare. *)
Definition sampleDefaults : Defaults :=
  mkDefaults "2" "4" "2Gi" "4Gi" "20Gi" "full" "info" 9933.

Definition emptyNode : Node :=
  mkNode "node" "default" ∅ (mkNodeSpec emptyResources "" "" false 0).

(** A node with every defaulted field set by the user and RPC disabled. *)
Definition explicitNode : Node :=
  mkNode "node" "default" ∅
    (mkNodeSpec (mkResources "500m" "1" "1Gi" "3Gi" "50Gi" (Some "fast"))
       "fast" "debug" false 8000).

End Polkadot.

(** ** Stacks API: the defaulting webhook *)

Module Stacks.
Import Shared.

(** Modelled from the spec: the Stacks node type is declared outside the
    webhook file; following the data model of the specification every
    node spec carries the resources block. *)
Record Node := mkNode {
  Name : string;
  Resources_ : Resources
}.

(** [func (r *Node) Default()]: only the log line. *)
Definition Default (r : Node) : Node := r.

End Stacks.

(** ** Resource quantities *)

Module Quantity.

(** [resource.Quantity] values are exact decimal numbers with at most nine
    fractional digits; they are represented by their count of nano-units,
    an integer, so that [Cmp] is the order of [Z].  The parser
    [resource.ParseQuantity] belongs to the Kubernetes libraries: the code
    is embedded over any parser [string -> option Z]. *)
Definition Parser := string -> option Z.

Definition isDigit (c : ascii) : bool :=
  (48 <=? nat_of_ascii c)%nat && (nat_of_ascii c <=? 57)%nat.

Fixpoint digits (s : string) (acc : N) : N * string :=
  match s with
  | String c rest =>
      if isDigit c
      then digits rest (10 * acc + (N_of_ascii c - 48))%N
      else (acc, s)
  | EmptyString => (acc, s)
  end.

Definition suffixNanos (suffix : string) : option Z :=
  if String.eqb suffix "" then Some 1000000000%Z
  else if String.eqb suffix "m" then Some 1000000%Z
  else if String.eqb suffix "k" then Some (1000 * 1000000000)%Z
  else if String.eqb suffix "M" then Some (1000000 * 1000000000)%Z
  else if String.eqb suffix "G" then Some (1000000000 * 1000000000)%Z
  else if String.eqb suffix "Ki" then Some (2 ^ 10 * 1000000000)%Z
  else if String.eqb suffix "Mi" then Some (2 ^ 20 * 1000000000)%Z
  else if String.eqb suffix "Gi" then Some (2 ^ 30 * 1000000000)%Z
  else if String.eqb suffix "Ti" then Some (2 ^ 40 * 1000000000)%Z
  else None.

(** A parser for the fragment of the quantity grammar that the tests and
    the default constants use: an unsigned decimal integer followed by one
    of the suffixes above.  It instantiates [Parser] in the examples. *)
Definition parseUnsigned : Parser := fun s =>
  match s with
  | EmptyString => None
  | String c _ =>
      if isDigit c then
        let '(n, suffix) := digits s 0 in
        (fun unit => Z.of_N n * unit)%Z <$> suffixNanos suffix
      else None
  end.

End Quantity.

(** ** Validation stage *)

Module Validation.
Import Shared.

(** [field.ErrorType] and [field.Error], as the tests build them. *)
Inductive ErrorType := ErrorTypeInvalid.

Record Error := mkError {
  Type_ : ErrorType;
  Field : string;
  BadValue : string;
  Detail : string
}.

Abbreviation ErrorList := (list Error).

Global Instance ErrorType_eq_dec : EqDecision ErrorType.
Proof. solve_decision. Defined.

Global Instance Error_eq_dec : EqDecision Error.
Proof. solve_decision. Defined.

(** [field.Invalid(path, value, detail)] *)
Definition Invalid (path value detail : string) : Error :=
  mkError ErrorTypeInvalid path value detail.

(** The comparison policy of a resource kind. *)
Inductive Policy := GreaterOrEqual | Greater.

Definition satisfies (p : Policy) (limit request : Z) : bool :=
  match p with
  | GreaterOrEqual => (request <=? limit)%Z
  | Greater => (request <? limit)%Z
  end.

Definition relation (p : Policy) : string :=
  match p with
  | GreaterOrEqual => "greater than or equal to"
  | Greater => "greater than"
  end.

Definition cpuLimitPath : string := "spec.resources.cpuLimit".
Definition memoryLimitPath : string := "spec.resources.memoryLimit".
Definition storageClassPath : string := "spec.resources.storageClass".

Section Checker.
Variable ParseQuantity : Quantity.Parser.

(** Modelled from the spec: the Resource Invariant Checker (the
    [validate] method of the shared resources is not among the sources;
    the tests call it through [ValidateCreate] and [ValidateUpdate]).
    Given a (request, limit) pair and a policy it returns no error when
    the policy holds and otherwise one error with the field path, the
    offending value and the detail "must be <relation> <kind>
    <request>".  An empty field is no constraint.  [None]: a field is
    not a quantity, for which the spec gives no result. *)
Definition checkPair (p : Policy) (path kind request limit : string)
  : option ErrorList :=
  if Go.isEmpty request || Go.isEmpty limit then Some []
  else
    q ← ParseQuantity request;
    l ← ParseQuantity limit;
    Some (if satisfies p l q then []
          else [Invalid path limit
                  ("must be " +:+ relation p +:+ " " +:+ kind +:+ " "
                   +:+ request)]).

(** Modelled from the spec: the checker applied independently to the CPU
    pair under [>=] and to the memory pair under [>]; storage is exempt;
    the errors are accumulated. *)
Definition validateResources (r : Resources) : option ErrorList :=
  cpu ← checkPair GreaterOrEqual cpuLimitPath "cpu" (CPU r) (CPULimit r);
  memory ← checkPair Greater memoryLimitPath "memory"
             (Memory r) (MemoryLimit r);
  Some (cpu ++ memory).

(** Modelled from the spec: [validateCreate(spec) -> errorList]. *)
Definition validateCreate (spec : Resources) : option ErrorList :=
  validateResources spec.

(** Modelled from the spec: immutability of the storage class. *)
Definition validateImmutable (oldSpec newSpec : Resources) : ErrorList :=
  if decide (StorageClass oldSpec = StorageClass newSpec) then []
  else [Invalid storageClassPath (default "" (StorageClass newSpec))
          "field is immutable"].

(** Modelled from the spec: [validateUpdate(oldSpec, newSpec) ->
    errorList] runs the same checker on the new spec and additionally
    checks immutability. *)
Definition validateUpdate (oldSpec newSpec : Resources)
  : option ErrorList :=
  errs ← validateResources newSpec;
  Some (errs ++ validateImmutable oldSpec newSpec).

(** The errors of a list reported on one field path. *)
Definition errorsOn (path : string) (errs : ErrorList) : ErrorList :=
  filter (fun e => Field e = path) errs.

End Checker.

End Validation.

(** ** Client adapters *)

Module PolkadotClient.

Definition EnvPolkadotImage : string := "POLKADOT_IMAGE".
Definition DefaultPolkadotImage : string := "parity/polkadot:v0.9.9-1".
Definition PolkadotHomeDir : string := "/polkadot".

Section Client.
Variable env : Go.Environ.
Variable node : Polkadot.Node.

(** [func (c *PolkadotClient) Image() string] *)
Definition Image : string :=
  if Go.isEmpty (Go.Getenv env EnvPolkadotImage)
  then DefaultPolkadotImage
  else Go.Getenv env EnvPolkadotImage.

(** [func (c *PolkadotClient) Command() []string] *)
Definition Command : list string := [].

(** [func (c *PolkadotClient) Args() (args []string)] *)
Definition Args : list string :=
  let args : list string := [] in
  let _ := node in
  args.

(** [func (c *PolkadotClient) HomeDir() string] *)
Definition HomeDir : string := PolkadotHomeDir.
End Client.

End PolkadotClient.

Module Near.

(** The fields of the NEAR node spec that the adapter reads. *)
Record NodeSpec := mkNodeSpec {
  P2PHost : string;
  P2PPort : N;
  RPC : bool;
  RPCHost : string;
  RPCPort : N;
  PrometheusHost : string;
  PrometheusPort : N;
  TelemetryURL : string;
  Archive : bool;
  MinPeers : N;
  Bootnodes : list string
}.

Record Node := mkNode { Name : string; Spec : NodeSpec }.

End Near.

Module NearClient.
Import Near.

Definition EnvNearImage : string := "NEAR_IMAGE".
Definition DefaultNearImage : string := "kotalco/nearcore:1.23.1".
Definition NearHomeDir : string := "/home/near".

(** The flag names [NearArg...] are constants of the package declared in
    another file, and [shared.PathData] is a function of the shared
    package: the adapter is embedded over any values of them. *)
Record Flags := mkFlags {
  NearArgHome : string;
  NearArgNetworkAddress : string;
  NearArgRPCAddress : string;
  NearArgPrometheusAddress : string;
  NearArgDisableRPC : string;
  NearArgTelemetryURL : string;
  NearArgArchive : string;
  NearArgMinimumPeers : string;
  NearArgBootnodes : string
}.

Section Client.
Variable fl : Flags.
Variable PathData : string -> string.
Variable env : Go.Environ.
Variable node : Node.

Definition Image : string :=
  if Go.isEmpty (Go.Getenv env EnvNearImage)
  then DefaultNearImage
  else Go.Getenv env EnvNearImage.

Definition Command : list string := [].

Definition HomeDir : string := NearHomeDir.

(** [func (c *NearClient) Args() (args []string)] *)
Definition Args : list string :=
  let args : list string := [] in
  let args := args ++ ["neard"] in
  let args := args ++ [NearArgHome fl; PathData HomeDir] in
  let args := args ++ ["run"] in
  let args :=
    args ++ [NearArgNetworkAddress fl;
             Go.Sprintf_s_d (P2PHost (Spec node)) (P2PPort (Spec node))] in
  let args :=
    if RPC (Spec node) then
      let args :=
        args ++ [NearArgRPCAddress fl;
                 Go.Sprintf_s_d (RPCHost (Spec node)) (RPCPort (Spec node))] in
      args ++ [NearArgPrometheusAddress fl;
               Go.Sprintf_s_d (PrometheusHost (Spec node))
                 (PrometheusPort (Spec node))]
    else args ++ [NearArgDisableRPC fl] in
  let args :=
    if negb (Go.isEmpty (TelemetryURL (Spec node)))
    then args ++ [NearArgTelemetryURL fl; TelemetryURL (Spec node)]
    else args in
  let args :=
    if Archive (Spec node) then args ++ [NearArgArchive fl] else args in
  let args :=
    args ++ [NearArgMinimumPeers fl; Go.Sprintf_d (MinPeers (Spec node))] in
  let args :=
    if negb (Nat.eqb (length (Bootnodes (Spec node))) 0)
    then args ++ [NearArgBootnodes fl; Go.Join (Bootnodes (Spec node)) ","]
    else args in
  args.
End Client.

(** Sample values of the absent constants, for the examples. *)
Definition sampleFlags : Flags :=
  mkFlags "--home" "--network-addr" "--rpc-addr" "--rpc-prometheus-addr"
    "--disable-rpc" "--telemetry-url" "--archive" "--min-peers"
    "--boot-nodes".

Definition samplePathData (homeDir : string) : string :=
  homeDir +:+ "/kotal-data".

End NearClient.

(** ** The cluster client *)

Module Cluster.

(** An object key: (namespace, name). *)
Abbreviation Key := (string * string)%type.

(** The API errors the reconcilers tell apart. *)
Inductive Error := NotFound | AlreadyExists | AlreadyOwned.

(** What a call does: it returns, it returns an error, or it panics (the
    value carried is the string [resource.MustParse] could not parse). *)
Inductive Outcome (A : Type) :=
| Ok (a : A)
| Err (e : Error)
| Panicked (input : string).
Global Arguments Ok {A} a.
Global Arguments Err {A} e.
Global Arguments Panicked {A} input.

Definition bind {A B} (x : Outcome A) (k : A -> Outcome B) : Outcome B :=
  match x with
  | Ok a => k a
  | Err e => Err e
  | Panicked s => Panicked s
  end.

Definition isOk {A} (x : Outcome A) : bool :=
  match x with Ok _ => true | _ => false end.

Definition isErr {A} (x : Outcome A) : bool :=
  match x with Err _ => true | _ => false end.

(** A stateful call on a store [S]: the store it leaves is returned with the
    outcome, since writes made before an error or a panic stay. *)
Definition M (S A : Type) := S -> Outcome A * S.

Definition ret {S A} (a : A) : M S A := fun s => (Ok a, s).

Definition mbind {S A B} (m : M S A) (k : A -> M S B) : M S B :=
  fun s =>
    match m s with
    | (Ok a, s') => k a s'
    | (Err e, s') => (Err e, s')
    | (Panicked p, s') => (Panicked p, s')
    end.

Definition lift {S A} (x : Outcome A) : M S A := fun s => (x, s).

(** An in-memory object store for one kind of object, behaving as the API
    server does for [Get], [Create], [Update] and [Delete]. *)
Section Objects.
Context {A : Type}.

Definition Get (key : Key) (m : gmap Key A) : Outcome A :=
  match m !! key with
  | Some obj => Ok obj
  | None => Err NotFound
  end.

Definition Create (key : Key) (obj : A) : M (gmap Key A) unit :=
  fun m =>
    match m !! key with
    | Some _ => (Err AlreadyExists, m)
    | None => (Ok tt, <[key := obj]> m)
    end.

Definition Update (key : Key) (obj : A) : M (gmap Key A) unit :=
  fun m =>
    match m !! key with
    | Some _ => (Ok tt, <[key := obj]> m)
    | None => (Err NotFound, m)
    end.

Definition Delete (key : Key) : M (gmap Key A) unit :=
  fun m =>
    match m !! key with
    | Some _ => (Ok tt, delete key m)
    | None => (Err NotFound, m)
    end.
End Objects.

(** [client.IgnoreNotFound(err)] *)
Definition IgnoreNotFound (e : Error) : Outcome unit :=
  match e with
  | NotFound => Ok tt
  | _ => Err e
  end.

End Cluster.

(** ** Ethereum network reconciler *)

Module Ethereum.
Import Cluster.

(** [ethereumv1alpha1.Node]; [SynchronizationMode], the account and the
    API names are string types, [String()] is the conversion. *)
Record Node := mkNode {
  Name : string;
  SyncMode : string;
  Miner : bool;
  MinerAccount : string;
  RPC : bool;
  RPCPort : N;
  RPCHost : string;
  RPCAPI : list string;
  WS : bool;
  WSPort : N;
  WSHost : string;
  WSAPI : list string;
  Hosts : list string;
  CORSDomains : list string
}.

Record NetworkSpec := mkNetworkSpec {
  Join : string;
  Nodes : list Node
}.

Record Network := mkNetwork {
  NetworkName : string;
  NetworkNamespace : string;
  Spec : NetworkSpec
}.

Record Container := mkContainer {
  ContainerName : string;
  Image : string;
  Command : list string;
  Args : list string
}.

(** [appsv1.Deployment], with the fields the reconciler sets; [Owner] is
    the controller owner reference. *)
Record Deployment := mkDeployment {
  DepName : string;
  DepNamespace : string;
  DepLabels : gmap string string;
  Owner : option Key;
  Selector : gmap string string;
  TemplateLabels : gmap string string;
  Containers : list Container
}.

Record Store := mkStore {
  networks : gmap Key Network;
  deployments : gmap Key Deployment
}.

Definition DepKey (dep : Deployment) : Key := (DepNamespace dep, DepName dep).

Definition onDeployments {A} (m : M (gmap Key Deployment) A) : M Store A :=
  fun s =>
    let '(r, deps) := m (deployments s) in
    (r, mkStore (networks s) deps).

(** [func (r *NetworkReconciler) createArgsForClient(node, join) []string] *)
Definition createArgsForClient (node : Node) (join : string) : list string :=
  let args : list string := [] in
  let args :=
    if negb (Go.isEmpty join) then args ++ ["--network"; join] else args in
  let args :=
    if negb (Go.isEmpty (SyncMode node))
    then args ++ ["--sync-mode"; SyncMode node] else args in
  let args :=
    if Miner node then args ++ ["--miner-enabled"] else args in
  let args :=
    if negb (Go.isEmpty (MinerAccount node))
    then args ++ ["--miner-coinbase"; MinerAccount node] else args in
  let args :=
    if RPC node then args ++ ["--rpc-http-enabled"] else args in
  let args :=
    if negb (N.eqb (RPCPort node) 0)
    then args ++ ["--rpc-http-port"; Go.Sprintf_d (RPCPort node)] else args in
  let args :=
    if negb (Go.isEmpty (RPCHost node))
    then args ++ ["--rpc-http-host"; RPCHost node] else args in
  let args :=
    if negb (Nat.eqb (length (RPCAPI node)) 0) then
      let apis := foldl (fun apis api => apis ++ [api]) [] (RPCAPI node) in
      let commaSeperatedAPIs := Go.Join apis "," in
      args ++ ["--rpc-http-api"; commaSeperatedAPIs]
    else args in
  let args :=
    if WS node then args ++ ["--rpc-ws-enabled"] else args in
  let args :=
    if negb (N.eqb (WSPort node) 0)
    then args ++ ["--rpc-ws-port"; Go.Sprintf_d (WSPort node)] else args in
  let args :=
    if negb (Go.isEmpty (WSHost node))
    then args ++ ["--rpc-ws-host"; WSHost node] else args in
  let args :=
    if negb (Nat.eqb (length (WSAPI node)) 0) then
      let apis := foldl (fun apis api => apis ++ [api]) [] (WSAPI node) in
      let commaSeperatedAPIs := Go.Join apis "," in
      args ++ ["--rpc-ws-api"; commaSeperatedAPIs]
    else args in
  let args :=
    if negb (Nat.eqb (length (Hosts node)) 0) then
      let commaSeperatedHosts := Go.Join (Hosts node) "," in
      args ++ ["--host-whitelist"; commaSeperatedHosts]
    else args in
  let args :=
    if negb (Nat.eqb (length (CORSDomains node)) 0) then
      let commaSeperatedDomains := Go.Join (CORSDomains node) "," in
      args ++ ["--rpc-http-cors-origins"; commaSeperatedDomains]
    else args in
  args.

Definition appNode : gmap string string := {[ "app" := "node" ]}.

(** [func (r *NetworkReconciler) createDeploymentForNode(node, ns, args)] *)
Definition createDeploymentForNode (node : Node) (ns : string)
    (args : list string) : Deployment :=
  mkDeployment (Name node) ns appNode None appNode appNode
    [mkContainer "node" "hyperledger/besu" ["besu"] args].

(** [client.MatchingLabels]: every label of the selector is on the object *)
Definition MatchingLabels (sel labels : gmap string string) : bool :=
  bool_decide (map_Forall (fun k v => labels !! k = Some v) sel).

(** [r.Client.List(ctx, &deps, client.MatchingLabels{...})]: no namespace
    option is passed, so the deployments of every namespace are listed. *)
Definition List (sel : gmap string string) (s : Store) : list Deployment :=
  filter (fun dep => MatchingLabels sel (DepLabels dep) = true)
    (snd <$> map_to_list (deployments s)).

(** The loop over [deps.Items] of [deleteRedundantNodes]. *)
Fixpoint deleteItems (names : gmap string bool) (items : list Deployment)
  : M Store unit :=
  match items with
  | [] => ret tt
  | dep :: rest =>
      let name := DepName dep in
      let exist := default false (names !! name) in
      if negb exist then
        mbind (onDeployments (Delete (DepKey dep)))
          (fun _ => deleteItems names rest)
      else deleteItems names rest
  end.

(** [func (r *NetworkReconciler) deleteRedundantNodes(ctx, nodes, ns) error];
    [ns] is not used by the body. *)
Definition deleteRedundantNodes (nodes : list Node) (ns : string)
  : M Store unit :=
  fun s =>
    let names : gmap string bool :=
      foldl (fun names node => <[Name node := true]> names) ∅ nodes in
    let deps := List appNode s in
    deleteItems names deps s.

(** Whether the loop of [deleteRedundantNodes] over [items] deletes the
    object of key [key]. *)
Definition deletedBy (names : gmap string bool) (items : list Deployment)
    (key : Key) : bool :=
  existsb (fun dep => bool_decide (DepKey dep = key)
                      && negb (default false (names !! DepName dep))) items.

(** Every deployment is stored under its namespace and name. *)
Definition keyed (s : Store) : Prop :=
  forall key dep, deployments s !! key = Some dep -> DepKey dep = key.

(** [ctrl.SetControllerReference(owner, object, scheme)]: it fails when the
    object is already controlled by another owner. *)
Definition SetControllerReference (owner : Key) (dep : Deployment)
  : Outcome Deployment :=
  match Owner dep with
  | Some o =>
      if decide (o = owner) then Ok dep else Err AlreadyOwned
  | None =>
      Ok (mkDeployment (DepName dep) (DepNamespace dep) (DepLabels dep)
            (Some owner) (Selector dep) (TemplateLabels dep)
            (Containers dep))
  end.

Definition NetworkKey (network : Network) : Key :=
  (NetworkNamespace network, NetworkName network).

(** [func (r *NetworkReconciler) createOrUpdateNode(ctx, node, network, ns,
    found) error] *)
Definition createOrUpdateNode (node : Node) (network : Network)
    (ns : string) (found : bool) : M Store unit :=
  let args := createArgsForClient node (Join (Spec network)) in
  let newDep := createDeploymentForNode node ns args in
  mbind (lift (SetControllerReference (NetworkKey network) newDep))
    (fun newDep =>
       if found
       then onDeployments (Update (DepKey newDep) newDep)
       else onDeployments (Create (DepKey newDep) newDep)).

(** [func (r *NetworkReconciler) reconcileNode(ctx, node, network) error] *)
Definition reconcileNode (node : Node) (network : Network) : M Store unit :=
  fun s =>
    let ns := NetworkNamespace network in
    match Get (A:=Deployment) (ns, Name node) (deployments s) with
    | Ok _ => createOrUpdateNode node network ns true s
    | Err NotFound => createOrUpdateNode node network ns false s
    | Err e => (Err e, s)
    | Panicked p => (Panicked p, s)
    end.

Fixpoint reconcileNodes (nodes : list Node) (network : Network)
  : M Store unit :=
  match nodes with
  | [] => ret tt
  | node :: rest =>
      mbind (reconcileNode node network)
        (fun _ => reconcileNodes rest network)
  end.

(** The deployment [createOrUpdateNode] writes for [node]: the one built by
    [createDeploymentForNode] from the arguments of [createArgsForClient],
    with the network as its controller. *)
Definition deploymentOfNode (network : Network) (node : Node) : Deployment :=
  let ns := NetworkNamespace network in
  let args := createArgsForClient node (Join (Spec network)) in
  let dep := createDeploymentForNode node ns args in
  mkDeployment (DepName dep) (DepNamespace dep) (DepLabels dep)
    (Some (NetworkKey network)) (Selector dep) (TemplateLabels dep)
    (Containers dep).

(** The deployment that the loop over [nodes] leaves under [key]: the one of
    the last node of that name, if there is one. *)
Fixpoint declaredAt (network : Network) (nodes : list Node) (key : Key)
  : option Deployment :=
  match nodes with
  | [] => None
  | node :: rest =>
      match declaredAt network rest key with
      | Some dep => Some dep
      | None =>
          if decide ((NetworkNamespace network, Name node) = key)
          then Some (deploymentOfNode network node)
          else None
      end
  end.

(** The test of the cleanup on a listed deployment: it carries the label
    app=node and its name is not the name of a declared node. *)
Definition redundant (nodes : list Node) (dep : Deployment) : bool :=
  MatchingLabels appNode (DepLabels dep)
  && negb (bool_decide (DepName dep ∈ Name <$> nodes)).

(** [func (r *NetworkReconciler) Reconcile(req) (ctrl.Result, error)] *)
Definition Reconcile (req : Key) : M Store unit :=
  fun s =>
    match Get req (networks s) with
    | Err e => (IgnoreNotFound e, s)
    | Panicked p => (Panicked p, s)
    | Ok network =>
        mbind (deleteRedundantNodes (Nodes (Spec network)) (fst req))
          (fun _ => reconcileNodes (Nodes (Spec network)) network) s
    end.

End Ethereum.

(** ** Polkadot node reconciler *)

Module PolkadotController.
Import Cluster Shared Polkadot.

Definition ResourceCPU : string := "cpu".
Definition ResourceMemory : string := "memory".
Definition ResourceStorage : string := "storage".
Definition ReadWriteOnce : string := "ReadWriteOnce".

(** [corev1.PersistentVolumeClaimSpec]: the fields [specPVC] writes and
    those it leaves alone. *)
Record PersistentVolumeClaimSpec := mkPVCSpec {
  AccessModes : list string;
  PVCSelector : option (gmap string string);
  Requests : gmap string Z;
  Limits : gmap string Z;
  VolumeName : string;
  StorageClassName : option string;
  VolumeMode : option string
}.

Record PersistentVolumeClaim := mkPVC {
  PVCName : string;
  PVCNamespace : string;
  PVCLabels : gmap string string;
  PVCOwner : option Key;
  (** [CreationTimestamp]: [0] is the zero time *)
  PVCCreationTimestamp : N;
  PVCSpec : PersistentVolumeClaimSpec
}.

Record VolumeMount := mkVolumeMount {
  MountName : string;
  MountPath : string
}.

Record Container := mkContainer {
  ContainerName : string;
  ContainerImage : string;
  ContainerArgs : list string;
  VolumeMounts : list VolumeMount;
  ContainerRequests : gmap string Z;
  ContainerLimits : gmap string Z
}.

Record Volume := mkVolume {
  VolumeName_ : string;
  ClaimName : string
}.

Record StatefulSetSpec := mkStatefulSetSpec {
  MatchLabels : gmap string string;
  ServiceName : string;
  TemplateLabels : gmap string string;
  Containers : list Container;
  Volumes : list Volume
}.

Record StatefulSet := mkStatefulSet {
  StsName : string;
  StsNamespace : string;
  StsLabels : gmap string string;
  StsOwner : option Key;
  StsCreationTimestamp : N;
  StsSpec : StatefulSetSpec
}.

Definition emptyPVCSpec : PersistentVolumeClaimSpec :=
  mkPVCSpec [] None ∅ ∅ "" None None.

Definition emptyStatefulSetSpec : StatefulSetSpec :=
  mkStatefulSetSpec ∅ "" ∅ [] [].

Global Instance PVCSpec_eq_dec : EqDecision PersistentVolumeClaimSpec.
Proof. solve_decision. Defined.
Global Instance PVC_eq_dec : EqDecision PersistentVolumeClaim.
Proof. solve_decision. Defined.
Global Instance VolumeMount_eq_dec : EqDecision VolumeMount.
Proof. solve_decision. Defined.
Global Instance Container_eq_dec : EqDecision Container.
Proof. solve_decision. Defined.
Global Instance Volume_eq_dec : EqDecision Volume.
Proof. solve_decision. Defined.
Global Instance StatefulSetSpec_eq_dec : EqDecision StatefulSetSpec.
Proof. solve_decision. Defined.
Global Instance StatefulSet_eq_dec : EqDecision StatefulSet.
Proof. solve_decision. Defined.

(** The cluster: the stored nodes, claims and stateful sets. *)
Record Store := mkStore {
  nodes : gmap Key Node;
  pvcs : gmap Key PersistentVolumeClaim;
  statefulsets : gmap Key StatefulSet
}.

Definition withPVCs (s : Store) (m : gmap Key PersistentVolumeClaim) : Store :=
  mkStore (nodes s) m (statefulsets s).

Definition withStatefulSets (s : Store) (m : gmap Key StatefulSet) : Store :=
  mkStore (nodes s) (pvcs s) m.

(** [controllerutil.OperationResult] *)
Inductive OperationResult :=
| OperationResultNone
| OperationResultCreated
| OperationResultUpdated.

Definition NodeKey (node : Node) : Key := (Namespace node, Name node).

Definition withLabels (node : Node) (labels : gmap string string) : Node :=
  mkNode (Name node) (Namespace node) labels (Spec node).

(** [func (r *NodeReconciler) updateLabels(node)] *)
Definition updateLabels (node : Node) : Node :=
  let labels := Labels node in
  let labels := <["app.kubernetes.io/name" := "polkadot"]> labels in
  let labels := <["app.kubernetes.io/instance" := Name node]> labels in
  let labels := <["app.kubernetes.io/component" := "polkadot-node"]> labels in
  let labels := <["app.kubernetes.io/managed-by" := "kotal"]> labels in
  let labels :=
    <["app.kubernetes.io/created-by" := "polkadot-node-controller"]> labels in
  withLabels node labels.


(** The claim built from the node spec alone, for the storage request [q]. *)
Definition claimFromNode (node : Node) (owner : option Key) (stamp : N)
    (q : Z) : PersistentVolumeClaim :=
  mkPVC (Name node) (Namespace node) (Labels node) owner stamp
    (mkPVCSpec [ReadWriteOnce] None {[ ResourceStorage := q ]} ∅ ""
       (StorageClass (Resources_ (Spec node))) None).

(** The stateful set built from the node spec alone, for the image, home
    directory and arguments of the client and the parsed quantities. *)
Definition statefulSetFromNode (PathData : string -> string) (node : Node)
    (owner : option Key) (stamp : N) (image homeDir : string)
    (args : list string) (cpu memory cpuLimit memoryLimit : Z)
  : StatefulSet :=
  mkStatefulSet (Name node) (Namespace node) (Labels node) owner stamp
    (mkStatefulSetSpec (Labels node) (Name node) (Labels node)
       [mkContainer "node" image args
          [mkVolumeMount "data" (PathData homeDir)]
          (<[ResourceMemory := memory]> {[ ResourceCPU := cpu ]})
          (<[ResourceMemory := memoryLimit]> {[ ResourceCPU := cpuLimit ]})]
       [mkVolume "data" (Name node)]).

(** The five labels that [updateLabels] writes. *)
Definition managedLabels (node : Node) : list (string * string) :=
  [ ("app.kubernetes.io/name", "polkadot");
    ("app.kubernetes.io/instance", Name node);
    ("app.kubernetes.io/component", "polkadot-node");
    ("app.kubernetes.io/managed-by", "kotal");
    ("app.kubernetes.io/created-by", "polkadot-node-controller") ].

Section Reconciler.
Variable ParseQuantity : Quantity.Parser.
Variable PathData : string -> string.
Variable defaults : Defaults.
Variable env : Go.Environ.
(** [shared.IsWebhookEnabled()] *)
Variable webhookEnabled : bool.
(** the time of the API server, with which it stamps the objects it
    creates; it is never the zero time *)
Variable now : positive.

(** [resource.MustParse(str)]: panics when [str] does not parse. *)
Definition MustParse (str : string) : Outcome Z :=
  match ParseQuantity str with
  | Some q => Ok q
  | None => Panicked str
  end.

(** [func (r *NodeReconciler) specPVC(node, pvc)] *)
Definition specPVC (node : Node) (pvc : PersistentVolumeClaim)
  : Outcome PersistentVolumeClaim :=
  bind (MustParse (Storage (Resources_ (Spec node)))) (fun q =>
    let request : gmap string Z := {[ ResourceStorage := q ]} in
    let spec := PVCSpec pvc in
    if negb (N.eqb (PVCCreationTimestamp pvc) 0) then
      Ok (mkPVC (PVCName pvc) (PVCNamespace pvc) (PVCLabels pvc)
            (PVCOwner pvc) (PVCCreationTimestamp pvc)
            (mkPVCSpec (AccessModes spec) (PVCSelector spec) request
               (Limits spec) (VolumeName spec) (StorageClassName spec)
               (VolumeMode spec)))
    else
      Ok (mkPVC (PVCName pvc) (PVCNamespace pvc) (Labels node)
            (PVCOwner pvc) (PVCCreationTimestamp pvc)
            (mkPVCSpec [ReadWriteOnce] None request ∅ ""
               (StorageClass (Resources_ (Spec node))) None))).

(** [func (r *NodeReconciler) specStatefulSet(node, sts, image, homeDir,
    args) error]; the four quantities are parsed in the order of the
    composite literal. *)
Definition specStatefulSet (node : Node) (sts : StatefulSet)
    (image homeDir : string) (args : list string) : Outcome StatefulSet :=
  let res := Resources_ (Spec node) in
  bind (MustParse (CPU res)) (fun cpu =>
  bind (MustParse (Memory res)) (fun memory =>
  bind (MustParse (CPULimit res)) (fun cpuLimit =>
  bind (MustParse (MemoryLimit res)) (fun memoryLimit =>
    Ok (mkStatefulSet (StsName sts) (StsNamespace sts) (Labels node)
          (StsOwner sts) (StsCreationTimestamp sts)
          (mkStatefulSetSpec (Labels node) (Name node) (Labels node)
             [mkContainer "node" image args
                [mkVolumeMount "data" (PathData homeDir)]
                (<[ResourceMemory := memory]> {[ ResourceCPU := cpu ]})
                (<[ResourceMemory := memoryLimit]>
                   {[ ResourceCPU := cpuLimit ]})]
             [mkVolume "data" (Name node)])))))).

(** [ctrl.SetControllerReference(owner, object, scheme)] on a claim and on
    a stateful set: it fails when the object is already controlled by
    another owner. *)
Definition setOwner (owner : Key) (current : option Key)
  : Outcome (option Key) :=
  match current with
  | Some o => if decide (o = owner) then Ok current else Err AlreadyOwned
  | None => Ok (Some owner)
  end.

Definition SetControllerReferencePVC (node : Node)
    (pvc : PersistentVolumeClaim) : Outcome PersistentVolumeClaim :=
  bind (setOwner (NodeKey node) (PVCOwner pvc)) (fun o =>
    Ok (mkPVC (PVCName pvc) (PVCNamespace pvc) (PVCLabels pvc) o
          (PVCCreationTimestamp pvc) (PVCSpec pvc))).

Definition SetControllerReferenceSts (node : Node) (sts : StatefulSet)
  : Outcome StatefulSet :=
  bind (setOwner (NodeKey node) (StsOwner sts)) (fun o =>
    Ok (mkStatefulSet (StsName sts) (StsNamespace sts) (StsLabels sts) o
          (StsCreationTimestamp sts) (StsSpec sts))).

(** [ctrl.CreateOrUpdate(ctx, client, obj, mutate)] of controller-runtime:
    read the object; when it is not found, mutate the given object and
    create it (the server stamps it); otherwise mutate the object read
    and update it unless the mutation changed nothing. *)
Definition CreateOrUpdate {A} `{EqDecision A}
    (stamp : N -> A -> A) (now : N) (key : Key) (obj : A)
    (mutate : A -> Outcome A) : M (gmap Key A) OperationResult :=
  fun m =>
    match Get key m with
    | Err NotFound =>
        match mutate obj with
        | Ok obj' =>
            mbind (Create key (stamp now obj'))
              (fun _ => ret OperationResultCreated) m
        | Err e => (Err e, m)
        | Panicked p => (Panicked p, m)
        end
    | Err e => (Err e, m)
    | Panicked p => (Panicked p, m)
    | Ok existing =>
        match mutate existing with
        | Ok obj' =>
            if decide (existing = obj') then (Ok OperationResultNone, m)
            else
              mbind (Update key obj')
                (fun _ => ret OperationResultUpdated) m
        | Err e => (Err e, m)
        | Panicked p => (Panicked p, m)
        end
    end.

Definition stampPVC (now : N) (pvc : PersistentVolumeClaim) :=
  mkPVC (PVCName pvc) (PVCNamespace pvc) (PVCLabels pvc) (PVCOwner pvc)
    now (PVCSpec pvc).

Definition stampSts (now : N) (sts : StatefulSet) :=
  mkStatefulSet (StsName sts) (StsNamespace sts) (StsLabels sts)
    (StsOwner sts) now (StsSpec sts).

(** [func (r *NodeReconciler) reconcilePVC(ctx, node) error] *)
Definition reconcilePVC (node : Node) : M Store unit :=
  fun s =>
    let pvc := mkPVC (Name node) (Namespace node) ∅ None 0 emptyPVCSpec in
    let '(r, m) :=
      CreateOrUpdate stampPVC (Npos now) (NodeKey node) pvc
        (fun pvc =>
           bind (SetControllerReferencePVC node pvc) (fun pvc =>
           specPVC node pvc))
        (pvcs s) in
    (bind r (fun _ => Ok tt), withPVCs s m).

(** [func (r *NodeReconciler) reconcileStatefulset(ctx, node) error] *)
Definition reconcileStatefulset (node : Node) : M Store unit :=
  fun s =>
    let sts :=
      mkStatefulSet (Name node) (Namespace node) ∅ None 0
        emptyStatefulSetSpec in
    let img := PolkadotClient.Image env in
    let args := PolkadotClient.Args node in
    let homeDir := PolkadotClient.HomeDir in
    let '(r, m) :=
      CreateOrUpdate stampSts (Npos now) (NodeKey node) sts
        (fun sts =>
           bind (SetControllerReferenceSts node sts) (fun sts =>
           specStatefulSet node sts img homeDir args))
        (statefulsets s) in
    (bind r (fun _ => Ok tt), withStatefulSets s m).

(** [if !shared.IsWebhookEnabled() { node.Default() }] *)
Definition defaultUnlessWebhook (node : Node) : Node :=
  if negb webhookEnabled then Default defaults node else node.

(** [func (r *NodeReconciler) Reconcile(ctx, req) (ctrl.Result, error)] *)
Definition Reconcile (req : Key) : M Store unit :=
  fun s =>
    match Get req (nodes s) with
    | Err e => (IgnoreNotFound e, s)
    | Panicked p => (Panicked p, s)
    | Ok node =>
        let node := defaultUnlessWebhook node in
        let node := updateLabels node in
        mbind (reconcilePVC node)
          (fun _ => reconcileStatefulset node) s
    end.

End Reconciler.

(** The mutation that [reconcilePVC] hands to [ctrl.CreateOrUpdate]. *)
Definition mutatePVC (ParseQuantity : Quantity.Parser) (node : Node)
    (pvc : PersistentVolumeClaim) : Outcome PersistentVolumeClaim :=
  bind (SetControllerReferencePVC node pvc) (fun pvc =>
  specPVC ParseQuantity node pvc).

(** The mutation that [reconcileStatefulset] hands to [ctrl.CreateOrUpdate]. *)
Definition mutateSts (ParseQuantity : Quantity.Parser)
    (PathData : string -> string) (env : Go.Environ) (node : Node)
    (sts : StatefulSet) : Outcome StatefulSet :=
  bind (SetControllerReferenceSts node sts) (fun sts =>
  specStatefulSet ParseQuantity PathData node sts
    (PolkadotClient.Image env) PolkadotClient.HomeDir
    (PolkadotClient.Args node)).

End PolkadotController.

(** ** The flag grammar of the adapters, as the specification words it *)

Module FlagGrammar.

(** A flag of an adapter: it is included when its condition on the spec
    holds, and it is followed by its value tokens (none for a switch, one for
    a valued flag; a multi-value field is one comma-joined token). *)
Record Flag := mkFlag {
  included : bool;
  name : string;
  values : list string
}.

Definition render (f : Flag) : list string :=
  if included f then name f :: values f else [].

Definition renderAll (fs : list Flag) : list string := fs ≫= render.

(** No value token of an included flag reads as the name of a flag. *)
Definition valuesAreNotFlags (fs : list Flag) : Prop :=
  Forall (fun f => included f = true ->
                   Forall (fun v => v ∉ name <$> fs) (values f)) fs.

(** a string field is set *)
Definition isSet (s : string) : bool := negb (Go.isEmpty s).

(** a port is set *)
Definition isPort (n : N) : bool := negb (N.eqb n 0).

(** a list field is set *)
Definition hasElements (l : list string) : bool :=
  negb (Nat.eqb (length l) 0).

(** The flags of the Ethereum client, each with the test of its field. *)
Definition besuFlags (node : Ethereum.Node) (join : string) : list Flag :=
  let n := node in
  [ mkFlag (isSet join) "--network" [join];
    mkFlag (isSet (Ethereum.SyncMode n)) "--sync-mode" [Ethereum.SyncMode n];
    mkFlag (Ethereum.Miner n) "--miner-enabled" [];
    mkFlag (isSet (Ethereum.MinerAccount n)) "--miner-coinbase"
      [Ethereum.MinerAccount n];
    mkFlag (Ethereum.RPC n) "--rpc-http-enabled" [];
    mkFlag (isPort (Ethereum.RPCPort n)) "--rpc-http-port"
      [Go.Sprintf_d (Ethereum.RPCPort n)];
    mkFlag (isSet (Ethereum.RPCHost n)) "--rpc-http-host" [Ethereum.RPCHost n];
    mkFlag (hasElements (Ethereum.RPCAPI n)) "--rpc-http-api"
      [Go.Join (Ethereum.RPCAPI n) ","];
    mkFlag (Ethereum.WS n) "--rpc-ws-enabled" [];
    mkFlag (isPort (Ethereum.WSPort n)) "--rpc-ws-port"
      [Go.Sprintf_d (Ethereum.WSPort n)];
    mkFlag (isSet (Ethereum.WSHost n)) "--rpc-ws-host" [Ethereum.WSHost n];
    mkFlag (hasElements (Ethereum.WSAPI n)) "--rpc-ws-api"
      [Go.Join (Ethereum.WSAPI n) ","];
    mkFlag (hasElements (Ethereum.Hosts n)) "--host-whitelist"
      [Go.Join (Ethereum.Hosts n) ","];
    mkFlag (hasElements (Ethereum.CORSDomains n)) "--rpc-http-cors-origins"
      [Go.Join (Ethereum.CORSDomains n) ","] ].

(** The tokens of the NEAR client: five are unconditional, and the
    disable-RPC switch is included when RPC is disabled. *)
Definition nearFlags (fl : NearClient.Flags) (PathData : string -> string)
    (node : Near.Node) : list Flag :=
  let s := Near.Spec node in
  [ mkFlag true "neard" [];
    mkFlag true (NearClient.NearArgHome fl) [PathData NearClient.NearHomeDir];
    mkFlag true "run" [];
    mkFlag true (NearClient.NearArgNetworkAddress fl)
      [Go.Sprintf_s_d (Near.P2PHost s) (Near.P2PPort s)];
    mkFlag (Near.RPC s) (NearClient.NearArgRPCAddress fl)
      [Go.Sprintf_s_d (Near.RPCHost s) (Near.RPCPort s)];
    mkFlag (Near.RPC s) (NearClient.NearArgPrometheusAddress fl)
      [Go.Sprintf_s_d (Near.PrometheusHost s) (Near.PrometheusPort s)];
    mkFlag (negb (Near.RPC s)) (NearClient.NearArgDisableRPC fl) [];
    mkFlag (isSet (Near.TelemetryURL s)) (NearClient.NearArgTelemetryURL fl)
      [Near.TelemetryURL s];
    mkFlag (Near.Archive s) (NearClient.NearArgArchive fl) [];
    mkFlag true (NearClient.NearArgMinimumPeers fl)
      [Go.Sprintf_d (Near.MinPeers s)];
    mkFlag (hasElements (Near.Bootnodes s)) (NearClient.NearArgBootnodes fl)
      [Go.Join (Near.Bootnodes s) ","] ].

End FlagGrammar.

(** ** Sample inputs *)

Module Samples.
Import Shared.

(** The resources of a test case, as the test table writes them. *)
Definition onlyCPU (cpu cpuLimit : string) : Resources :=
  mkResources cpu cpuLimit "" "" "" None.

Definition onlyMemory (memory memoryLimit : string) : Resources :=
  mkResources "" "" memory memoryLimit "" None.

(** The empty fields of [r] filled with the resource defaults of
    [defaults.go]. *)
Definition defaulted (r : Resources) : Resources :=
  mkResources (Polkadot.orDefault (CPU r) "2")
    (Polkadot.orDefault (CPULimit r) "4")
    (Polkadot.orDefault (Memory r) "2Gi")
    (Polkadot.orDefault (MemoryLimit r) "4Gi")
    (Polkadot.orDefault (Storage r) "20Gi")
    (StorageClass r).

(** The resources of the test case "Peer #1" after defaulting. *)
Definition cpuBad : Resources := defaulted (onlyCPU "2" "1").

(** The resources of the test case "Peer #2" after defaulting. *)
Definition memoryEqual : Resources := defaulted (onlyMemory "1Gi" "1Gi").

(** The test tables of the validation webhook: the resources validated and
    the error expected among the causes. *)
Definition createCases : list (Resources * Validation.Error) :=
  [ (defaulted (onlyCPU "2" "1"),
     Validation.Invalid "spec.resources.cpuLimit" "1"
       "must be greater than or equal to cpu 2");
    (defaulted (onlyMemory "1Gi" "1Gi"),
     Validation.Invalid "spec.resources.memoryLimit" "1Gi"
       "must be greater than memory 1Gi");
    (defaulted (onlyMemory "2Gi" "1Gi"),
     Validation.Invalid "spec.resources.memoryLimit" "1Gi"
       "must be greater than memory 2Gi") ].

Definition updateCases
  : list (Resources * Resources * Validation.Error) :=
  [ (defaulted (onlyCPU "1" "1"), onlyCPU "2" "1",
     Validation.Invalid "spec.resources.cpuLimit" "1"
       "must be greater than or equal to cpu 2");
    (defaulted (onlyMemory "1Gi" "2Gi"), onlyMemory "1Gi" "1Gi",
     Validation.Invalid "spec.resources.memoryLimit" "1Gi"
       "must be greater than memory 1Gi");
    (defaulted (onlyMemory "1Gi" "2Gi"), onlyMemory "2Gi" "1Gi",
     Validation.Invalid "spec.resources.memoryLimit" "1Gi"
       "must be greater than memory 2Gi") ].

(** An Ethereum node with a miner account, RPC on port 8545 for two APIs and
    two whitelisted hosts; everything else unset. *)
Definition besuNode : Ethereum.Node :=
  Ethereum.mkNode "node-1" "fast" false "0xabc" true 8545 "" ["eth"; "net"]
    false 0 "" [] ["a.example"; "b.example"] [].

(** A NEAR node with every optional field unset or disabled. *)
Definition nearNodeUnset : Near.Node :=
  Near.mkNode "near" (Near.mkNodeSpec "" 0 false "" 0 "" 0 "" false 0 []).

Definition Gi (n : Z) : Z := (n * (2 ^ 30 * 1000000000))%Z.

(** A Polkadot node asking for 10Gi of storage of class "slow". *)
Definition smallNode : Polkadot.Node :=
  Polkadot.mkNode "dot" "default" ∅
    (Polkadot.mkNodeSpec (mkResources "2" "4" "2Gi" "4Gi" "10Gi" (Some "slow"))
       "full" "info" false 0).


(** A node whose storage request is not a quantity. *)
Definition badStorageNode : Polkadot.Node :=
  Polkadot.mkNode "dot" "default" ∅
    (Polkadot.mkNodeSpec (mkResources "2" "4" "2Gi" "4Gi" "lots" None)
       "full" "info" false 0).

(** A node whose CPU request is not a quantity. *)
Definition badCpuNode : Polkadot.Node :=
  Polkadot.mkNode "dot" "default" ∅
    (Polkadot.mkNodeSpec (mkResources "two" "4" "2Gi" "4Gi" "10Gi" None)
       "full" "info" false 0).

Definition storeOf (node : Polkadot.Node) : PolkadotController.Store :=
  PolkadotController.mkStore {[ ("default", "dot") := node ]} ∅ ∅.

(** Two networks in two namespaces: "net-a" declares the node "n1",
    "net-b" declares the node "m1"; each node has its deployment, owned by
    its network. *)
Definition plainNode (name : string) : Ethereum.Node :=
  Ethereum.mkNode name "" false "" false 0 "" [] false 0 "" [] [] [].

Definition networkA : Ethereum.Network :=
  Ethereum.mkNetwork "net-a" "a" (Ethereum.mkNetworkSpec "" [plainNode "n1"]).

Definition networkB : Ethereum.Network :=
  Ethereum.mkNetwork "net-b" "b" (Ethereum.mkNetworkSpec "" [plainNode "m1"]).

Definition deploymentOf (network : Ethereum.Network) (node : Ethereum.Node)
  : Ethereum.Deployment :=
  let dep :=
    Ethereum.createDeploymentForNode node (Ethereum.NetworkNamespace network)
      (Ethereum.createArgsForClient node
         (Ethereum.Join (Ethereum.Spec network))) in
  Ethereum.mkDeployment (Ethereum.DepName dep) (Ethereum.DepNamespace dep)
    (Ethereum.DepLabels dep) (Some (Ethereum.NetworkKey network))
    (Ethereum.Selector dep) (Ethereum.TemplateLabels dep)
    (Ethereum.Containers dep).

Definition twoNetworks : Ethereum.Store :=
  Ethereum.mkStore
    {[ ("a", "net-a") := networkA; ("b", "net-b") := networkB ]}
    {[ ("a", "n1") := deploymentOf networkA (plainNode "n1");
       ("b", "m1") := deploymentOf networkB (plainNode "m1") ]}.

(** The claim of the node "dot" when another object controls it. *)
Definition foreignClaim : PolkadotController.PersistentVolumeClaim :=
  PolkadotController.mkPVC "dot" "default" ∅ (Some ("default", "other")) 7
    (PolkadotController.mkPVCSpec [PolkadotController.ReadWriteOnce] None
       {[ PolkadotController.ResourceStorage := Gi 20 ]} ∅ "pv-1"
       (Some "fast") (Some "Filesystem")).

Definition foreignClaimStore : PolkadotController.Store :=
  PolkadotController.mkStore {[ ("default", "dot") := badStorageNode ]}
    {[ ("default", "dot") := foreignClaim ]} ∅.

(** An environment that overrides the image of the Polkadot client. *)
Definition imageOverride : Go.Environ :=
  {[ "POLKADOT_IMAGE" := "registry.example/polkadot:test" ]}.

(** A NEAR node with RPC, telemetry, archive and two boot nodes. *)
Definition nearNodeFull : Near.Node :=
  Near.mkNode "near"
    (Near.mkNodeSpec "0.0.0.0" 24567 true "0.0.0.0" 3030 "0.0.0.0" 9615
       "https://explorer.example" true 5 ["peer-a"; "peer-b"]).

End Samples.

(** * Defaulting *)

Ltac in_list :=
  repeat first [apply list_elem_of_here | apply list_elem_of_further].

Section DefaultingFacts.
Import Shared Polkadot.
Variable d : Defaults.

Lemma isEmpty_true s : Go.isEmpty s = true <-> s = "".
Proof. apply String.eqb_eq. Qed.

Lemma isEmpty_false s : Go.isEmpty s = false <-> s <> "".
Proof. apply String.eqb_neq. Qed.

Lemma orDefault_idem s x : orDefault (orDefault s x) x = orDefault s x.
Proof.
  unfold orDefault.
  destruct (Go.isEmpty s) eqn:Hs; [|by rewrite Hs].
  by destruct (Go.isEmpty x).
Qed.

Lemma orDefault_set s x : s <> "" -> orDefault s x = s.
Proof. intros H. unfold orDefault. by apply isEmpty_false in H as ->. Qed.

Lemma orDefault_nonempty s x : x <> "" -> orDefault s x <> "".
Proof.
  intros Hx. unfold orDefault.
  destruct (Go.isEmpty s) eqn:Hs; [done|]. by apply isEmpty_false.
Qed.

Lemma DefaultNodeResources_idem r :
  DefaultNodeResources d (DefaultNodeResources d r) = DefaultNodeResources d r.
Proof.
  unfold DefaultNodeResources, withResources; simpl.
  by rewrite !orDefault_idem.
Qed.

(** C3: applying [Default] twice gives the same node as applying it once. *)
Theorem Default_idempotent (r : Node) :
  Default d (Default d r) = Default d r.
Proof.
  unfold Default, DefaultNodeResources, withResources; simpl.
  rewrite !orDefault_idem.
  do 2 f_equal.
  destruct (RPC (Spec r)); [|done].
  destruct (N.eqb (RPCPort (Spec r)) 0) eqn:E; [|by rewrite E].
  by destruct (N.eqb (DefaultRPCPort d) 0).
Qed.

(** C4: [Default] overwrites only empty or zero fields: a CPU request or
    limit, memory request or limit, storage request, sync mode or logging
    verbosity that is not empty, and an RPC port that is not zero, is the
    same after [Default]; the RPC port is left as it is when RPC is
    disabled (a zero port stays zero), and it is changed only to the
    default port, when RPC is enabled and the port was zero. *)
Theorem Default_overwrites_only_empty (r : Node) :
  let res := Resources_ (Spec r) in
  let res' := Resources_ (Spec (Default d r)) in
  (CPU res <> "" -> CPU res' = CPU res) /\
  (CPULimit res <> "" -> CPULimit res' = CPULimit res) /\
  (Memory res <> "" -> Memory res' = Memory res) /\
  (MemoryLimit res <> "" -> MemoryLimit res' = MemoryLimit res) /\
  (Storage res <> "" -> Storage res' = Storage res) /\
  (SyncMode (Spec r) <> "" ->
     SyncMode (Spec (Default d r)) = SyncMode (Spec r)) /\
  (Logging (Spec r) <> "" ->
     Logging (Spec (Default d r)) = Logging (Spec r)) /\
  (RPCPort (Spec r) <> 0%N ->
     RPCPort (Spec (Default d r)) = RPCPort (Spec r)) /\
  (RPC (Spec r) = false ->
     RPCPort (Spec (Default d r)) = RPCPort (Spec r)) /\
  (RPC (Spec r) = false -> RPCPort (Spec r) = 0%N ->
     RPCPort (Spec (Default d r)) = 0%N) /\
  (RPCPort (Spec (Default d r)) <> RPCPort (Spec r) ->
     RPC (Spec r) = true /\ RPCPort (Spec r) = 0%N /\
     RPCPort (Spec (Default d r)) = DefaultRPCPort d).
Proof.
  simpl.
  repeat split; try (by apply orDefault_set);
    destruct (RPC (Spec r));
    try destruct (N.eqb_spec (RPCPort (Spec r)) 0);
    intros; congruence.
Qed.

(** C5 (amended): the Polkadot [Default] leaves a CPU request that is not
    empty, provided the default CPU request of the package is not empty
    (it is "2" in [defaults.go]); so does the reconciler's inline
    defaulting when the webhooks are disabled, and so does a node that went
    through [Default] at admission when they are enabled. *)
Theorem Default_cpuRequest_nonempty (r : Node) :
  DefaultNodeCPURequest d <> "" ->
  CPU (Resources_ (Spec (Default d r))) <> "" /\
  CPU (Resources_ (Spec (PolkadotController.defaultUnlessWebhook d false r)))
    <> "" /\
  CPU (Resources_ (Spec (PolkadotController.defaultUnlessWebhook d true
                           (Default d r)))) <> "".
Proof.
  intros Hd. unfold PolkadotController.defaultUnlessWebhook; simpl.
  repeat split; by apply orDefault_nonempty.
Qed.

End DefaultingFacts.

Lemma Default_overwrites_only_empty_witness :
  let r := Polkadot.explicitNode in
  let r' := Polkadot.Default Polkadot.sampleDefaults r in
  Shared.CPU (Polkadot.Resources_ (Polkadot.Spec r')) = "500m" /\
  Shared.MemoryLimit (Polkadot.Resources_ (Polkadot.Spec r')) = "3Gi" /\
  Polkadot.SyncMode (Polkadot.Spec r') = "fast" /\
  Polkadot.RPCPort (Polkadot.Spec r') = 8000%N.
Proof.
  pose proof (Default_overwrites_only_empty Polkadot.sampleDefaults
                Polkadot.explicitNode) as H.
  simpl in H.
  destruct H as (Hcpu & _ & _ & Hml & _ & Hsync & _ & Hport & _).
  intros r r'. split; [|split; [|split]].
  - apply Hcpu. discriminate.
  - apply Hml. discriminate.
  - apply Hsync. discriminate.
  - apply Hport. discriminate.
Defined.

Lemma Default_cpuRequest_nonempty_witness :
  Shared.CPU (Polkadot.Resources_
                (Polkadot.Spec (Polkadot.Default Polkadot.sampleDefaults
                                  Polkadot.emptyNode))) <> "".
Proof.
  apply (Default_cpuRequest_nonempty Polkadot.sampleDefaults
           Polkadot.emptyNode).
  discriminate.
Defined.

(** C5 (as stated) fails for the Stacks family: its [Default] fills nothing,
    so an empty CPU request is still empty after it. *)
Lemma stacks_Default_keeps_empty_cpuRequest :
  ~ (forall n : Stacks.Node,
       Shared.CPU (Stacks.Resources_ (Stacks.Default n)) <> "").
Proof.
  intros H. by apply (H (Stacks.mkNode "node" Shared.emptyResources)).
Qed.

(** * Validation *)

Section ValidationFacts.
Import Shared Validation.
Variable ParseQuantity : Quantity.Parser.

Lemma checkPair_set p path kind request limit q l :
  request <> "" -> limit <> "" ->
  ParseQuantity request = Some q -> ParseQuantity limit = Some l ->
  checkPair ParseQuantity p path kind request limit =
    Some (if satisfies p l q then []
          else [Invalid path limit
                  ("must be " +:+ relation p +:+ " " +:+ kind +:+ " "
                   +:+ request)]).
Proof.
  intros Hr Hl Hq Hlim. unfold checkPair.
  apply isEmpty_false in Hr as ->. apply isEmpty_false in Hl as ->.
  simpl. by rewrite Hq, Hlim.
Qed.

Lemma checkPair_fields p path kind request limit errs :
  checkPair ParseQuantity p path kind request limit = Some errs ->
  Forall (fun e => Field e = path) errs.
Proof.
  unfold checkPair.
  destruct (Go.isEmpty request || Go.isEmpty limit).
  - intros [= <-]. constructor.
  - destruct (ParseQuantity request) as [q|]; [|done].
    destruct (ParseQuantity limit) as [l|]; [|done]. simpl.
    intros [= <-]. destruct (satisfies p l q); repeat constructor.
Qed.

Lemma errorsOn_app path (xs ys : list Error) :
  errorsOn path (xs ++ ys) = errorsOn path xs ++ errorsOn path ys.
Proof. apply filter_app. Qed.

Lemma errorsOn_same path (errs : list Error) :
  Forall (fun e => Field e = path) errs -> errorsOn path errs = errs.
Proof.
  induction 1 as [|e errs He _ IH]; [done|].
  unfold errorsOn in *. rewrite filter_cons_True by done. by rewrite IH.
Qed.

Lemma errorsOn_other path path' (errs : list Error) :
  path' <> path ->
  Forall (fun e => Field e = path') errs -> errorsOn path errs = [].
Proof.
  intros Hne. induction 1 as [|e errs He _ IH]; [done|].
  unfold errorsOn in *. rewrite filter_cons_False by congruence. done.
Qed.

Lemma validateImmutable_fields oldSpec newSpec :
  Forall (fun e => Field e = storageClassPath)
    (validateImmutable oldSpec newSpec).
Proof. unfold validateImmutable. case_decide; repeat constructor. Qed.

Lemma validateImmutable_same oldSpec newSpec :
  StorageClass oldSpec = StorageClass newSpec ->
  validateImmutable oldSpec newSpec = [].
Proof. intros H. unfold validateImmutable. by rewrite decide_True. Qed.

(** What the two entry points return once both pairs have been checked. *)
Lemma validate_results oldSpec newSpec cpu memory :
  checkPair ParseQuantity GreaterOrEqual cpuLimitPath "cpu"
    (CPU newSpec) (CPULimit newSpec) = Some cpu ->
  checkPair ParseQuantity Greater memoryLimitPath "memory"
    (Memory newSpec) (MemoryLimit newSpec) = Some memory ->
  validateCreate ParseQuantity newSpec = Some (cpu ++ memory) /\
  validateUpdate ParseQuantity oldSpec newSpec =
    Some ((cpu ++ memory) ++ validateImmutable oldSpec newSpec).
Proof.
  intros Hc Hm. unfold validateUpdate, validateCreate, validateResources.
  rewrite Hc, Hm. done.
Qed.

Lemma errorsOn_cpu oldSpec newSpec cpu memory :
  checkPair ParseQuantity GreaterOrEqual cpuLimitPath "cpu"
    (CPU newSpec) (CPULimit newSpec) = Some cpu ->
  checkPair ParseQuantity Greater memoryLimitPath "memory"
    (Memory newSpec) (MemoryLimit newSpec) = Some memory ->
  errorsOn cpuLimitPath (cpu ++ memory) = cpu /\
  errorsOn cpuLimitPath
    ((cpu ++ memory) ++ validateImmutable oldSpec newSpec) = cpu.
Proof.
  intros Hc%checkPair_fields Hm%checkPair_fields.
  rewrite !errorsOn_app, (errorsOn_same _ _ Hc).
  rewrite (errorsOn_other cpuLimitPath memoryLimitPath) by done.
  rewrite (errorsOn_other cpuLimitPath storageClassPath)
    by (done || apply validateImmutable_fields).
  by rewrite !app_nil_r.
Qed.

Lemma errorsOn_memory oldSpec newSpec cpu memory :
  checkPair ParseQuantity GreaterOrEqual cpuLimitPath "cpu"
    (CPU newSpec) (CPULimit newSpec) = Some cpu ->
  checkPair ParseQuantity Greater memoryLimitPath "memory"
    (Memory newSpec) (MemoryLimit newSpec) = Some memory ->
  errorsOn memoryLimitPath (cpu ++ memory) = memory /\
  errorsOn memoryLimitPath
    ((cpu ++ memory) ++ validateImmutable oldSpec newSpec) = memory.
Proof.
  intros Hc%checkPair_fields Hm%checkPair_fields.
  rewrite !errorsOn_app, (errorsOn_same _ _ Hm).
  rewrite (errorsOn_other memoryLimitPath cpuLimitPath) by done.
  rewrite (errorsOn_other memoryLimitPath storageClassPath)
    by (done || apply validateImmutable_fields).
  by rewrite !app_nil_r.
Qed.

(** C1: for a spec with CPU request and CPU limit set (and quantities), the
    CPU rule of create and of update validation passes if and only if
    limit >= request: the error list they return has no error on
    [spec.resources.cpuLimit] exactly then, and on violation it has exactly
    one error on that path, with the limit as bad value and the detail
    "must be greater than or equal to cpu <request>".  The rule is applied
    to the CPU pair independently of the memory pair: when the memory pair
    raises no error (and, on update, the storage class is unchanged) the
    validation passes as a whole if and only if limit >= request, the
    violation then being the only error. *)
Theorem cpu_limit_rule (oldSpec newSpec : Resources) (q l : Z)
    (memory : list Error) :
  CPU newSpec <> "" -> CPULimit newSpec <> "" ->
  ParseQuantity (CPU newSpec) = Some q ->
  ParseQuantity (CPULimit newSpec) = Some l ->
  checkPair ParseQuantity Greater memoryLimitPath "memory"
    (Memory newSpec) (MemoryLimit newSpec) = Some memory ->
  let violation :=
    Invalid "spec.resources.cpuLimit" (CPULimit newSpec)
      ("must be greater than or equal to cpu " +:+ CPU newSpec) in
  exists created updated,
    validateCreate ParseQuantity newSpec = Some created /\
    validateUpdate ParseQuantity oldSpec newSpec = Some updated /\
    (errorsOn cpuLimitPath created = [] <-> (l >= q)%Z) /\
    (errorsOn cpuLimitPath updated = [] <-> (l >= q)%Z) /\
    ((l < q)%Z ->
       errorsOn cpuLimitPath created = [violation] /\
       errorsOn cpuLimitPath updated = [violation]) /\
    (memory = [] -> (created = [] <-> (l >= q)%Z)) /\
    (memory = [] -> StorageClass oldSpec = StorageClass newSpec ->
       (updated = [] <-> (l >= q)%Z)) /\
    (memory = [] -> (l < q)%Z -> created = [violation]).
Proof.
  intros Hr Hl Hq Hlim Hm violation.
  pose proof (checkPair_set GreaterOrEqual cpuLimitPath "cpu" _ _ _ _
                Hr Hl Hq Hlim) as Hc.
  destruct (validate_results oldSpec newSpec _ _ Hc Hm) as [Hcreate Hupdate].
  destruct (errorsOn_cpu oldSpec newSpec _ _ Hc Hm) as [Ec Eu].
  eexists _, _. split; [exact Hcreate|]. split; [exact Hupdate|].
  rewrite Ec, Eu. clear Ec Eu Hcreate Hupdate Hc.
  unfold satisfies.
  destruct (Z.leb_spec q l) as [Hle|Hlt].
  - repeat split; intros; subst; simpl;
      rewrite ?validateImmutable_same by done; try done; try lia.
  - repeat split; intros; subst; simpl in *; try done; try lia.
Qed.

(** C2: for a spec with memory request and memory limit set (and
    quantities), the memory rule of create and of update validation passes
    if and only if limit > request (equality is rejected): the error list
    they return has no error on [spec.resources.memoryLimit] exactly then,
    and on violation it has exactly one error on that path, with the limit
    as bad value and the detail "must be greater than memory <request>".
    The rule is applied to the memory pair independently of the CPU pair:
    when the CPU pair raises no error (and, on update, the storage class is
    unchanged) the validation passes as a whole if and only if
    limit > request, the violation then being the only error. *)
Theorem memory_limit_rule (oldSpec newSpec : Resources) (q l : Z)
    (cpu : list Error) :
  Memory newSpec <> "" -> MemoryLimit newSpec <> "" ->
  ParseQuantity (Memory newSpec) = Some q ->
  ParseQuantity (MemoryLimit newSpec) = Some l ->
  checkPair ParseQuantity GreaterOrEqual cpuLimitPath "cpu"
    (CPU newSpec) (CPULimit newSpec) = Some cpu ->
  let violation :=
    Invalid "spec.resources.memoryLimit" (MemoryLimit newSpec)
      ("must be greater than memory " +:+ Memory newSpec) in
  exists created updated,
    validateCreate ParseQuantity newSpec = Some created /\
    validateUpdate ParseQuantity oldSpec newSpec = Some updated /\
    (errorsOn memoryLimitPath created = [] <-> (l > q)%Z) /\
    (errorsOn memoryLimitPath updated = [] <-> (l > q)%Z) /\
    ((l <= q)%Z ->
       errorsOn memoryLimitPath created = [violation] /\
       errorsOn memoryLimitPath updated = [violation]) /\
    (cpu = [] -> (created = [] <-> (l > q)%Z)) /\
    (cpu = [] -> StorageClass oldSpec = StorageClass newSpec ->
       (updated = [] <-> (l > q)%Z)) /\
    (cpu = [] -> (l <= q)%Z -> created = [violation]).
Proof.
  intros Hr Hl Hq Hlim Hc violation.
  pose proof (checkPair_set Greater memoryLimitPath "memory" _ _ _ _
                Hr Hl Hq Hlim) as Hm.
  destruct (validate_results oldSpec newSpec _ _ Hc Hm) as [Hcreate Hupdate].
  destruct (errorsOn_memory oldSpec newSpec _ _ Hc Hm) as [Ec Eu].
  eexists _, _. split; [exact Hcreate|]. split; [exact Hupdate|].
  rewrite Ec, Eu. clear Ec Eu Hcreate Hupdate Hm.
  unfold satisfies.
  destruct (Z.ltb_spec q l) as [Hlt|Hle].
  - repeat split; intros; subst; simpl;
      rewrite ?validateImmutable_same by done; try done; try lia.
  - repeat split; intros; subst; simpl in *; try done; try lia.
Qed.

End ValidationFacts.

(** The six cases of the test tables: each expected error is among the
    errors the modelled validation returns. *)
Lemma validation_test_tables :
  Forall (fun '(r, expected) =>
            exists errs,
              Validation.validateCreate Quantity.parseUnsigned r = Some errs /\
              expected ∈ errs)
    Samples.createCases /\
  Forall (fun '(old, new, expected) =>
            exists errs,
              Validation.validateUpdate Quantity.parseUnsigned old new
                = Some errs /\
              expected ∈ errs)
    Samples.updateCases.
Proof.
  split; repeat constructor; eexists; (split; [by vm_compute|in_list]).
Qed.

Lemma cpu_limit_rule_witness :
  exists created,
    Validation.validateCreate Quantity.parseUnsigned Samples.cpuBad
      = Some created /\
    created =
      [Validation.Invalid "spec.resources.cpuLimit" "1"
         "must be greater than or equal to cpu 2"].
Proof.
  destruct (cpu_limit_rule Quantity.parseUnsigned Samples.cpuBad
              Samples.cpuBad 2000000000 1000000000 [])
    as (created & updated & Hc & _ & _ & _ & _ & _ & _ & Hone).
  - discriminate.
  - discriminate.
  - reflexivity.
  - reflexivity.
  - reflexivity.
  - exists created. split; [exact Hc|]. apply Hone; [reflexivity|lia].
Defined.

Lemma memory_limit_rule_witness :
  exists created,
    Validation.validateCreate Quantity.parseUnsigned Samples.memoryEqual
      = Some created /\
    created =
      [Validation.Invalid "spec.resources.memoryLimit" "1Gi"
         "must be greater than memory 1Gi"].
Proof.
  destruct (memory_limit_rule Quantity.parseUnsigned Samples.memoryEqual
              Samples.memoryEqual (2 ^ 30 * 1000000000)
              (2 ^ 30 * 1000000000) [])
    as (created & updated & Hc & _ & _ & _ & _ & _ & _ & Hone).
  - discriminate.
  - discriminate.
  - reflexivity.
  - reflexivity.
  - reflexivity.
  - exists created. split; [exact Hc|]. apply Hone; [reflexivity|lia].
Defined.

(** * Client adapters *)

(** C10: the Polkadot adapter returns no command and no arguments, whatever
    the node; its home directory is "/polkadot"; its image is the pinned one
    when POLKADOT_IMAGE is unset (or empty). *)
Theorem PolkadotClient_constant (env : Go.Environ)
    (node node' : Polkadot.Node) :
  Go.Getenv env PolkadotClient.EnvPolkadotImage = "" ->
  PolkadotClient.Command = [] /\
  PolkadotClient.Args node = [] /\
  PolkadotClient.Args node = PolkadotClient.Args node' /\
  PolkadotClient.Image env = "parity/polkadot:v0.9.9-1" /\
  PolkadotClient.HomeDir = "/polkadot".
Proof.
  intros Henv. unfold PolkadotClient.Image. rewrite Henv. done.
Qed.

Lemma PolkadotClient_constant_witness :
  PolkadotClient.Args Polkadot.explicitNode = [] /\
  PolkadotClient.Image ∅ = "parity/polkadot:v0.9.9-1".
Proof.
  destruct (PolkadotClient_constant ∅ Polkadot.explicitNode
              Polkadot.emptyNode)
    as (_ & Hargs & _ & Himage & _).
  - reflexivity.
  - split; [exact Hargs|exact Himage].
Defined.

Section FlagFacts.
Import FlagGrammar.

Lemma foldl_snoc (l acc : list string) :
  foldl (fun apis api => apis ++ [api]) acc l = acc ++ l.
Proof.
  revert acc. induction l as [|x l IH]; intros acc; simpl.
  - by rewrite app_nil_r.
  - by rewrite IH, <- app_assoc.
Qed.

Lemma if_app (b : bool) (args more : list string) :
  (if b then args ++ more else args) = args ++ (if b then more else []).
Proof. destruct b; [done|by rewrite app_nil_r]. Qed.

Lemma elem_of_render f x :
  x ∈ render f <-> included f = true /\ (x = name f \/ x ∈ values f).
Proof.
  unfold render. destruct (included f).
  - rewrite elem_of_cons. split; [intros Hx; by split|by intros [_ Hx]].
  - split; [intros Hx; inversion Hx|by intros [? _]].
Qed.

Lemma elem_of_renderAll fs x :
  x ∈ renderAll fs <->
  exists f, f ∈ fs /\ included f = true /\ (x = name f \/ x ∈ values f).
Proof.
  unfold renderAll. rewrite list_elem_of_bind.
  split; intros (f & H1 & H2).
  - exists f. split; [done|]. by apply elem_of_render.
  - exists f. split; [|tauto]. by apply elem_of_render.
Qed.

Lemma same_name_same_flag (fs : list Flag) f g :
  NoDup (name <$> fs) -> f ∈ fs -> g ∈ fs -> name f = name g -> f = g.
Proof.
  induction fs as [|h fs IH]; simpl; [by intros _ ?%elem_of_nil|].
  intros [Hh Hnd]%NoDup_cons [->|Hf]%elem_of_cons [->|Hg]%elem_of_cons Hn;
    try done.
  - exfalso. apply Hh. rewrite Hn. by apply list_elem_of_fmap_2.
  - exfalso. apply Hh. rewrite <- Hn. by apply list_elem_of_fmap_2.
  - by apply IH.
Qed.

(** In a table with distinct names whose values are not flag names, the name
    of a flag occurs in the rendered tokens exactly when it is included. *)
Lemma name_rendered_iff (fs : list Flag) f :
  NoDup (name <$> fs) -> valuesAreNotFlags fs -> f ∈ fs ->
  name f ∈ renderAll fs <-> included f = true.
Proof.
  intros Hnd Hv Hf. rewrite elem_of_renderAll. split.
  - intros (g & Hg & Hinc & [Hn|Hval]).
    + by rewrite (same_name_same_flag fs f g Hnd Hf Hg Hn).
    + exfalso. unfold valuesAreNotFlags in Hv.
      rewrite Forall_forall in Hv. specialize (Hv g Hg Hinc).
      rewrite Forall_forall in Hv. apply (Hv _ Hval).
      by apply list_elem_of_fmap_2.
  - intros Hinc. exists f. auto.
Qed.

Lemma createArgsForClient_render node join :
  Ethereum.createArgsForClient node join = renderAll (besuFlags node join).
Proof.
  unfold Ethereum.createArgsForClient. cbv zeta.
  rewrite !foldl_snoc, !if_app. simpl.
  rewrite <- !app_assoc.
  unfold renderAll, besuFlags, render, isSet, isPort, hasElements. simpl.
  rewrite app_nil_r. reflexivity.
Qed.

Lemma NearClient_Args_render fl PathData node :
  NearClient.Args fl PathData node = renderAll (nearFlags fl PathData node).
Proof.
  unfold NearClient.Args, NearClient.HomeDir. cbv zeta.
  unfold renderAll, nearFlags, render, isSet, hasElements. simpl.
  destruct (Near.RPC (Near.Spec node)),
    (Go.isEmpty (Near.TelemetryURL (Near.Spec node))),
    (Near.Archive (Near.Spec node)),
    (Nat.eqb (length (Near.Bootnodes (Near.Spec node))) 0);
    reflexivity.
Qed.

Lemma besuFlags_names_NoDup node join :
  NoDup (name <$> besuFlags node join).
Proof. simpl. apply (bool_decide_unpack _). by vm_compute. Qed.

(** C8 (amended): the arguments of the Ethereum client are its flags in
    order, each included if and only if its field is set or enabled and
    followed by its value, a multi-value field being one comma-joined token;
    when no value reads as a flag name, a flag name occurs among the
    arguments exactly when its field is set or enabled.  The NEAR adapter
    follows the same grammar for the telemetry, archive and bootnodes flags,
    includes the RPC and Prometheus addresses when RPC is enabled and the
    disable-RPC switch when it is disabled, and always includes [neard], the
    home directory, [run], the network address and the minimum peers. *)
Theorem args_follow_flag_grammar (fl : NearClient.Flags)
    (PathData : string -> string) (node : Ethereum.Node) (join : string)
    (near : Near.Node) :
  valuesAreNotFlags (besuFlags node join) ->
  Ethereum.createArgsForClient node join = renderAll (besuFlags node join) /\
  (forall f, f ∈ besuFlags node join ->
     name f ∈ Ethereum.createArgsForClient node join <-> included f = true) /\
  NearClient.Args fl PathData near = renderAll (nearFlags fl PathData near) /\
  (Near.RPC (Near.Spec near) = false ->
     NearClient.NearArgDisableRPC fl ∈ NearClient.Args fl PathData near) /\
  NearClient.NearArgMinimumPeers fl ∈ NearClient.Args fl PathData near.
Proof.
  intros Hv. split; [apply createArgsForClient_render|].
  split.
  { intros f Hf. rewrite createArgsForClient_render.
    apply name_rendered_iff; auto using besuFlags_names_NoDup. }
  split; [apply NearClient_Args_render|].
  rewrite NearClient_Args_render. split.
  - intros Hrpc. apply elem_of_renderAll.
    exists (mkFlag (negb (Near.RPC (Near.Spec near)))
              (NearClient.NearArgDisableRPC fl) []).
    split; [|rewrite Hrpc; auto].
    unfold nearFlags. in_list.
  - apply elem_of_renderAll.
    exists (mkFlag true (NearClient.NearArgMinimumPeers fl)
              [Go.Sprintf_d (Near.MinPeers (Near.Spec near))]).
    split; [|auto]. unfold nearFlags. in_list.
Qed.

End FlagFacts.

Lemma args_follow_flag_grammar_witness :
  Ethereum.createArgsForClient Samples.besuNode "" =
    ["--sync-mode"; "fast"; "--miner-coinbase"; "0xabc"; "--rpc-http-enabled";
     "--rpc-http-port"; "8545"; "--rpc-http-api"; "eth,net";
     "--host-whitelist"; "a.example,b.example"].
Proof.
  destruct (args_follow_flag_grammar NearClient.sampleFlags
              NearClient.samplePathData Samples.besuNode ""
              Samples.nearNodeUnset) as (Hargs & _).
  - apply (bool_decide_unpack _). by vm_compute.
  - rewrite Hargs. reflexivity.
Defined.

(** C8 (as stated) fails for the NEAR adapter: a node whose RPC is disabled
    gets the disable-RPC flag, and a node with no minimum of peers gets the
    minimum-peers flag. *)
Lemma near_disabled_field_contributes_flag :
  ~ (forall fl PathData node,
       Near.RPC (Near.Spec node) = false ->
       NearClient.NearArgDisableRPC fl ∉ NearClient.Args fl PathData node) /\
  NearClient.Args NearClient.sampleFlags NearClient.samplePathData
    Samples.nearNodeUnset =
    ["neard"; "--home"; "/home/near/kotal-data"; "run"; "--network-addr";
     ":0"; "--disable-rpc"; "--min-peers"; "0"].
Proof.
  split; [|reflexivity].
  intros H.
  apply (H NearClient.sampleFlags NearClient.samplePathData
           Samples.nearNodeUnset); [reflexivity|].
  apply (bool_decide_unpack _). by vm_compute.
Qed.

(** * The persistent volume claim *)

Section ClaimFacts.
Import Cluster Shared Polkadot PolkadotController.
Variable ParseQuantity : Quantity.Parser.
Variable now : positive.


Lemma specPVC_new node pvc q :
  ParseQuantity (Storage (Resources_ (Spec node))) = Some q ->
  PVCCreationTimestamp pvc = 0%N ->
  specPVC ParseQuantity node pvc =
    Ok (mkPVC (PVCName pvc) (PVCNamespace pvc) (Labels node) (PVCOwner pvc) 0
          (PVCSpec (claimFromNode node None 0 q))).
Proof.
  intros Hq Hts. unfold specPVC, MustParse. rewrite Hq, Hts. done.
Qed.

Lemma reconcilePVC_creates node s q :
  ParseQuantity (Storage (Resources_ (Spec node))) = Some q ->
  pvcs s !! NodeKey node = None ->
  reconcilePVC ParseQuantity now node s =
    (Ok tt,
     withPVCs s
       (<[NodeKey node :=
            claimFromNode node (Some (NodeKey node)) (Npos now) q]>
          (pvcs s))).
Proof.
  intros Hq Hnone.
  unfold reconcilePVC, CreateOrUpdate, Get, Create, mbind.
  rewrite Hnone. simpl.
  unfold specPVC, MustParse. by rewrite Hq.
Qed.



End ClaimFacts.



(** * Quantities that do not parse *)

Section PanicFacts.
Import Cluster Shared Polkadot PolkadotController.
Variable ParseQuantity : Quantity.Parser.
Variable PathData : string -> string.
Variable defaults : Defaults.
Variable env : Go.Environ.
Variable webhookEnabled : bool.
Variable now : positive.

Lemma store_eta s : mkStore (nodes s) (pvcs s) (statefulsets s) = s.
Proof. by destruct s. Qed.

Ltac same_store := unfold withPVCs, withStatefulSets; rewrite ?store_eta.

Lemma setOwner_outcome owner current :
  (exists o, setOwner owner current = Ok o) \/
  setOwner owner current = Err AlreadyOwned.
Proof.
  unfold setOwner. destruct current as [o|]; [|eauto].
  case_decide; eauto.
Qed.

(** The claim step when the storage request does not parse: a panic, or the
    ownership error that precedes it; nothing is written. *)
Lemma reconcilePVC_unparsable node s :
  ParseQuantity (Storage (Resources_ (Spec node))) = None ->
  (reconcilePVC ParseQuantity now node s
     = (Panicked (Storage (Resources_ (Spec node))), s) \/
   reconcilePVC ParseQuantity now node s = (Err AlreadyOwned, s)) /\
  (pvcs s !! NodeKey node = None ->
   reconcilePVC ParseQuantity now node s
     = (Panicked (Storage (Resources_ (Spec node))), s)).
Proof.
  intros Hq.
  unfold reconcilePVC, CreateOrUpdate, Get.
  destruct (pvcs s !! NodeKey node) as [pvc|] eqn:Hpvc; simpl.
  - split; [|done].
    unfold SetControllerReferencePVC.
    destruct (setOwner_outcome (NodeKey node) (PVCOwner pvc)) as [[o ->]| ->];
      simpl; same_store; [|by right].
    unfold specPVC, MustParse. rewrite Hq. simpl. same_store. by left.
  - unfold specPVC, MustParse. rewrite Hq. simpl. same_store.
    by split; [left|].
Qed.

(** The claim step when the storage request parses: it succeeds and writes
    only claims, or it fails on ownership and writes nothing. *)
Lemma reconcilePVC_parsable node s q :
  ParseQuantity (Storage (Resources_ (Spec node))) = Some q ->
  ((exists m, reconcilePVC ParseQuantity now node s = (Ok tt, withPVCs s m)) \/
   reconcilePVC ParseQuantity now node s = (Err AlreadyOwned, s)) /\
  (pvcs s !! NodeKey node = None ->
   exists m, reconcilePVC ParseQuantity now node s = (Ok tt, withPVCs s m)).
Proof.
  intros Hq. split.
  - unfold reconcilePVC, CreateOrUpdate, Get, Create, Update, mbind.
    destruct (pvcs s !! NodeKey node) as [pvc|] eqn:Hpvc; simpl.
    + unfold SetControllerReferencePVC.
      destruct (setOwner_outcome (NodeKey node) (PVCOwner pvc))
        as [[o ->]| ->]; simpl; [|right; by same_store].
      unfold specPVC, MustParse. rewrite Hq. simpl. left.
      destruct (N.eqb _ 0); simpl; case_decide; simpl; eauto.
    + unfold specPVC, MustParse. rewrite Hq. simpl. eauto.
  - intros Hnone. rewrite (reconcilePVC_creates _ _ _ _ _ Hq Hnone). eauto.
Qed.

(** [specStatefulSet] panics on the first of the four quantities that does
    not parse. *)
Lemma specStatefulSet_unparsable node :
  let res := Resources_ (Spec node) in
  (exists x, x ∈ [CPU res; Memory res; CPULimit res; MemoryLimit res] /\
             ParseQuantity x = None) ->
  exists x,
    x ∈ [CPU res; Memory res; CPULimit res; MemoryLimit res] /\
    ParseQuantity x = None /\
    forall sts image homeDir args,
      specStatefulSet ParseQuantity PathData node sts image homeDir args
        = Panicked x.
Proof.
  intros res (y & Hy & Hnone). unfold specStatefulSet, MustParse. fold res.
  destruct (ParseQuantity (CPU res)) as [c|] eqn:Hc; simpl;
    [|exists (CPU res); split; [in_list|done]].
  destruct (ParseQuantity (Memory res)) as [m|] eqn:Hm; simpl;
    [|exists (Memory res); split; [in_list|done]].
  destruct (ParseQuantity (CPULimit res)) as [cl|] eqn:Hcl; simpl;
    [|exists (CPULimit res); split; [in_list|done]].
  destruct (ParseQuantity (MemoryLimit res)) as [ml|] eqn:Hml; simpl;
    [|exists (MemoryLimit res); split; [in_list|done]].
  exfalso.
  repeat (apply elem_of_cons in Hy as [->|Hy]; [congruence|]).
  by apply elem_of_nil in Hy.
Qed.

Lemma reconcileStatefulset_unparsable node s :
  let res := Resources_ (Spec node) in
  (exists x, x ∈ [CPU res; Memory res; CPULimit res; MemoryLimit res] /\
             ParseQuantity x = None) ->
  exists x,
    x ∈ [CPU res; Memory res; CPULimit res; MemoryLimit res] /\
    ParseQuantity x = None /\
    (reconcileStatefulset ParseQuantity PathData env now node s
       = (Panicked x, s) \/
     reconcileStatefulset ParseQuantity PathData env now node s
       = (Err AlreadyOwned, s)) /\
    (statefulsets s !! NodeKey node = None ->
     reconcileStatefulset ParseQuantity PathData env now node s
       = (Panicked x, s)).
Proof.
  intros res Hbad.
  destruct (specStatefulSet_unparsable node Hbad) as (x & Hx & Hnone & Hspec).
  exists x. split; [done|]. split; [done|].
  unfold reconcileStatefulset, CreateOrUpdate, Get.
  destruct (statefulsets s !! NodeKey node) as [sts|] eqn:Hsts; simpl.
  - split; [|done].
    unfold SetControllerReferenceSts.
    destruct (setOwner_outcome (NodeKey node) (StsOwner sts)) as [[o ->]| ->];
      simpl; same_store; [|by right].
    rewrite Hspec. simpl. same_store. by left.
  - rewrite Hspec. simpl. same_store. by split; [left|].
Qed.

(** C9 (amended): when a quantity of the node spec (storage, CPU, memory or
    one of the two limits) does not parse, the reconcile attempt neither
    succeeds nor returns a configuration error: [resource.MustParse] panics
    with the string it could not parse, and the panic leaves [Reconcile]
    (the only error that can come first is the ownership error of a child
    object controlled by another owner).  When neither child exists yet the
    attempt always ends in the panic, and when the storage request is the
    unparsable one nothing is written. *)
Theorem Reconcile_unparsable_quantity (req : Key) (s : Store) (stored : Node) :
  nodes s !! req = Some stored ->
  let node :=
    updateLabels (defaultUnlessWebhook defaults webhookEnabled stored) in
  let res := Resources_ (Spec node) in
  let quantities :=
    [Storage res; CPU res; Memory res; CPULimit res; MemoryLimit res] in
  (exists x, x ∈ quantities /\ ParseQuantity x = None) ->
  let result :=
    Reconcile ParseQuantity PathData defaults env webhookEnabled now req s in
  isOk (fst result) = false /\
  ((exists x, fst result = Panicked x /\ x ∈ quantities /\
              ParseQuantity x = None) \/
   fst result = Err AlreadyOwned) /\
  (pvcs s !! NodeKey node = None -> statefulsets s !! NodeKey node = None ->
   exists x, fst result = Panicked x /\ x ∈ quantities /\
             ParseQuantity x = None) /\
  (ParseQuantity (Storage res) = None -> snd result = s).
Proof.
  intros Hnode node res quantities (y & Hy & Hnone) result.
  assert (result =
            mbind (reconcilePVC ParseQuantity now node)
              (fun _ =>
                 reconcileStatefulset ParseQuantity PathData env now node)
              s) as Hres.
  { unfold result, Reconcile, Get. by rewrite Hnode. }
  clearbody result. subst result. unfold mbind.
  destruct (ParseQuantity (Storage res)) as [q|] eqn:Hq.
  - assert (exists x, x ∈ [CPU res; Memory res; CPULimit res; MemoryLimit res]
                      /\ ParseQuantity x = None) as Hbad.
    { exists y. split; [|done].
      apply elem_of_cons in Hy as [->|Hy]; [congruence|done]. }
    destruct (reconcilePVC_parsable node s q Hq) as [[[m Hpvc]|Hpvc] Hfresh].
    + rewrite Hpvc.
      destruct (reconcileStatefulset_unparsable node (withPVCs s m) Hbad)
        as (x & Hx & Hxnone & [Hsts|Hsts] & Hstsfresh).
      * rewrite Hsts. simpl. split; [done|]. split.
        { left. exists x. by repeat split; [apply list_elem_of_further|]. }
        split; [|done]. intros _ _. exists x.
        by repeat split; [apply list_elem_of_further|].
      * rewrite Hsts. simpl. split; [done|]. split; [by right|].
        split; [|done]. intros _ Hnosts.
        rewrite (Hstsfresh Hnosts) in Hsts. done.
    + rewrite Hpvc. simpl. split; [done|]. split; [by right|].
      split; [|done]. intros Hnopvc _.
      destruct (Hfresh Hnopvc) as [m Hok]. rewrite Hok in Hpvc. done.
  - destruct (reconcilePVC_unparsable node s Hq) as [[Hpvc|Hpvc] Hfresh].
    + rewrite Hpvc. simpl. split; [done|]. split.
      { left. exists (Storage res). by repeat split; [in_list|]. }
      split; [|done]. intros _ _. exists (Storage res).
      by repeat split; [in_list|].
    + rewrite Hpvc. simpl. split; [done|]. split; [by right|].
      split; [|done]. intros Hnopvc _.
      rewrite (Hfresh Hnopvc) in Hpvc. done.
Qed.

End PanicFacts.

Lemma Reconcile_unparsable_quantity_witness :
  exists x,
    fst (PolkadotController.Reconcile Quantity.parseUnsigned
           NearClient.samplePathData Polkadot.sampleDefaults ∅ true 1
           ("default", "dot") (Samples.storeOf Samples.badCpuNode))
      = Cluster.Panicked x /\
    Quantity.parseUnsigned x = None.
Proof.
  destruct (Reconcile_unparsable_quantity Quantity.parseUnsigned
              NearClient.samplePathData Polkadot.sampleDefaults ∅ true 1
              ("default", "dot") (Samples.storeOf Samples.badCpuNode)
              Samples.badCpuNode) as (_ & _ & Hfresh & _).
  - reflexivity.
  - exists "two". split; [|reflexivity].
    apply elem_of_cons. right. apply elem_of_cons. by left.
  - destruct Hfresh as (x & Hx & _ & Hnone); [reflexivity|reflexivity|].
    exists x. split; [exact Hx|exact Hnone].
Defined.

(** C9 (as stated) fails: reconciling a node whose storage request is "lots"
    returns no error, it panics; and reconciling a node whose CPU request is
    "two" panics after the claim has been created. *)
Lemma Reconcile_panics_on_unparsable_quantity :
  let reconcile :=
    PolkadotController.Reconcile Quantity.parseUnsigned
      NearClient.samplePathData Polkadot.sampleDefaults ∅ true 1
      ("default", "dot") in
  reconcile (Samples.storeOf Samples.badStorageNode)
    = (Cluster.Panicked "lots", Samples.storeOf Samples.badStorageNode) /\
  Cluster.isErr (fst (reconcile (Samples.storeOf Samples.badStorageNode)))
    = false /\
  fst (reconcile (Samples.storeOf Samples.badCpuNode))
    = Cluster.Panicked "two" /\
  is_Some (PolkadotController.pvcs
             (snd (reconcile (Samples.storeOf Samples.badCpuNode)))
             !! ("default", "dot")).
Proof.
  simpl. split; [by vm_compute|]. split; [by vm_compute|].
  split; [by vm_compute|].
  apply (bool_decide_unpack _). by vm_compute.
Qed.

(** * Redundant nodes *)

Section CleanupFacts.
Import Cluster Ethereum.

Lemma declared_names (nodes : list Node) (names : gmap string bool) n :
  default false
    (foldl (fun names node => <[Name node := true]> names) names nodes !! n)
  = bool_decide (n ∈ Name <$> nodes) || default false (names !! n).
Proof.
  revert names. induction nodes as [|node nodes IH]; intros names; simpl.
  - done.
  - rewrite IH. destruct (decide (n = Name node)) as [->|Hne].
    + rewrite lookup_insert_eq. simpl.
      rewrite (bool_decide_eq_true_2 (Name node ∈ Name node :: _));
        [by rewrite orb_true_r|apply list_elem_of_here].
    + rewrite lookup_insert_ne by done.
      f_equal. apply bool_decide_ext. rewrite elem_of_cons. tauto.
Qed.

(** What the loop over the listed deployments leaves in the store. *)
Lemma deleteItems_lookup names (items : list Deployment) (s : Store) :
  NoDup (DepKey <$> items) ->
  (forall dep, dep ∈ items -> deployments s !! DepKey dep = Some dep) ->
  exists s',
    deleteItems names items s = (Ok tt, s') /\
    networks s' = networks s /\
    forall key,
      deployments s' !! key =
        if deletedBy names items key then None else deployments s !! key.
Proof.
  revert s. induction items as [|dep items IH]; intros s Hnd Hin; simpl.
  - by exists s.
  - apply NoDup_cons in Hnd as [Hfresh Hnd].
    destruct (default false (names !! DepName dep)) eqn:Hexist; simpl.
    + destruct (IH s Hnd) as (s' & Hrun & Hnet & Hlook).
      { intros d Hd. apply Hin. by apply list_elem_of_further. }
      exists s'. split; [done|]. split; [done|].
      intros key. rewrite Hlook. by rewrite andb_false_r.
    + unfold mbind, onDeployments, Delete.
      rewrite (Hin dep) by apply list_elem_of_here.
      destruct (IH (mkStore (networks s) (delete (DepKey dep) (deployments s)))
                  Hnd) as (s' & Hrun & Hnet & Hlook).
      { intros d Hd. simpl. rewrite lookup_delete_ne.
        - apply Hin. by apply list_elem_of_further.
        - intros Heq. apply Hfresh. rewrite Heq.
          by apply list_elem_of_fmap_2. }
      exists s'. split; [done|]. split; [done|].
      intros key. rewrite Hlook. simpl. rewrite andb_true_r.
      destruct (deletedBy names items key); [by rewrite orb_true_r|].
      rewrite orb_false_r. case_bool_decide as Hkey.
      * subst key. by rewrite lookup_delete_eq.
      * by rewrite lookup_delete_ne.
Qed.

Lemma List_elem sel s dep :
  dep ∈ List sel s <->
  MatchingLabels sel (DepLabels dep) = true /\
  exists key, deployments s !! key = Some dep.
Proof.
  unfold List. rewrite list_elem_of_filter, list_elem_of_fmap.
  split.
  - intros [Hm ([key d] & -> & Hkd%elem_of_map_to_list)]. eauto.
  - intros [Hm [key Hk]]. split; [done|].
    exists (key, dep). split; [done|]. by apply elem_of_map_to_list.
Qed.

Lemma List_keys_NoDup sel s :
  keyed s -> NoDup (DepKey <$> List sel s).
Proof.
  intros Hkeyed. unfold List.
  apply (sublist_NoDup _ (DepKey <$> (map_to_list (deployments s)).*2)).
  - rewrite <- list_fmap_compose.
    rewrite (list_fmap_ext (DepKey ∘ snd) fst).
    + apply NoDup_fst_map_to_list.
    + intros i [key dep] Hi. simpl. apply Hkeyed.
      apply elem_of_map_to_list. by apply list_elem_of_lookup_2 in Hi.
  - apply fmap_sublist, sublist_filter.
Qed.

Lemma deletedBy_true names items key :
  deletedBy names items key = true <->
  exists dep, dep ∈ items /\ DepKey dep = key /\
              default false (names !! DepName dep) = false.
Proof.
  unfold deletedBy. rewrite existsb_exists. split.
  - intros (dep & Hin%list_elem_of_In & Hb).
    apply andb_true_iff in Hb as [Hk%bool_decide_eq_true Hn%negb_true_iff].
    eauto.
  - intros (dep & Hin & Hk & Hn). exists dep.
    split; [by apply list_elem_of_In|].
    apply andb_true_iff. split; [by apply bool_decide_eq_true|].
    by apply negb_true_iff.
Qed.

(** What [deleteRedundantNodes] does, in every namespace and for the
    deployments of every owner: it never fails, and it deletes exactly the
    deployments labelled app=node whose name is not the name of one of the
    given nodes. *)
Lemma deleteRedundantNodes_deletes (nodes : list Node) (ns : string)
    (s : Store) :
  keyed s ->
  exists s',
    deleteRedundantNodes nodes ns s = (Ok tt, s') /\
    networks s' = networks s /\
    forall key,
      deployments s' !! key =
        match deployments s !! key with
        | Some dep =>
            if MatchingLabels appNode (DepLabels dep)
               && negb (bool_decide (DepName dep ∈ Name <$> nodes))
            then None else Some dep
        | None => None
        end.
Proof.
  intros Hkeyed. unfold deleteRedundantNodes.
  set (names := foldl _ ∅ nodes).
  destruct (deleteItems_lookup names (List appNode s) s) as
    (s' & Hrun & Hnet & Hlook).
  { by apply List_keys_NoDup. }
  { intros dep [_ [key Hkey]]%List_elem. by rewrite (Hkeyed _ _ Hkey). }
  exists s'. split; [done|]. split; [done|].
  intros key. rewrite Hlook.
  assert (forall dep, default false (names !! DepName dep)
                      = bool_decide (DepName dep ∈ Name <$> nodes)) as Hnames.
  { intros dep. unfold names. rewrite declared_names.
    by rewrite lookup_empty, orb_false_r. }
  destruct (deployments s !! key) as [dep|] eqn:Hdep.
  - destruct (MatchingLabels appNode (DepLabels dep)
              && negb (bool_decide (DepName dep ∈ Name <$> nodes))) eqn:Hdel.
    + rewrite (proj2 (deletedBy_true names _ key)); [done|].
      apply andb_true_iff in Hdel as [Hm Hn%negb_true_iff].
      exists dep. split; [apply List_elem; eauto|].
      split; [by apply Hkeyed|]. by rewrite Hnames.
    + destruct (deletedBy names (List appNode s) key) eqn:Hby; [|done].
      apply deletedBy_true in Hby
        as (dep' & [Hm [key' Hk']]%List_elem & Hkey & Hn).
      assert (key' = key) as -> by (by rewrite <- (Hkeyed _ _ Hk')).
      rewrite Hdep in Hk'. injection Hk' as <-.
      rewrite Hnames in Hn. rewrite Hm, Hn in Hdel. discriminate Hdel.
  - by destruct (deletedBy names (List appNode s) key).
Qed.

End CleanupFacts.

(** C7: the cleanup of the network "net-a", which declares "n1", run on a
    cluster that also holds the network "net-b" with its node "m1" in another
    namespace: it returns no error, keeps the deployment of "n1" and deletes
    the deployment of "m1", which belongs to "net-b" and is declared there.
    The same happens under [Reconcile], which runs the cleanup first. *)
Theorem deleteRedundantNodes_deletes_foreign_deployment :
  let s := Samples.twoNetworks in
  let nodes := Ethereum.Nodes (Ethereum.Spec Samples.networkA) in
  let cleaned := Ethereum.deleteRedundantNodes nodes "a" s in
  let reconciled := Ethereum.Reconcile ("a", "net-a") s in
  Ethereum.Owner <$> (Ethereum.deployments s !! ("b", "m1"))
    = Some (Some ("b", "net-b")) /\
  fst cleaned = Cluster.Ok tt /\
  Ethereum.deployments (snd cleaned) !! ("b", "m1") = None /\
  Ethereum.deployments (snd cleaned) !! ("a", "n1")
    = Ethereum.deployments s !! ("a", "n1") /\
  fst reconciled = Cluster.Ok tt /\
  Ethereum.deployments (snd reconciled) !! ("b", "m1") = None.
Proof.
  simpl. repeat split; by vm_compute.
Qed.

(** * The network reconciler as a whole *)

Section NetworkFacts.
Import Cluster Ethereum.

Lemma store_ext (s1 s2 : Store) :
  networks s1 = networks s2 -> deployments s1 = deployments s2 -> s1 = s2.
Proof. destruct s1, s2; simpl; by intros -> ->. Qed.

Lemma cleanup_keeps_keyed (nodes : list Node) (ns : string)
    (s s' : Store) :
  keyed s -> deleteRedundantNodes nodes ns s = (Ok tt, s') -> keyed s'.
Proof.
  intros Hkeyed Hrun.
  destruct (deleteRedundantNodes_deletes nodes ns s Hkeyed)
    as (s1 & Hrun1 & _ & Hlook).
  rewrite Hrun in Hrun1. injection Hrun1 as <-.
  intros key dep. rewrite Hlook.
  destruct (deployments s !! key) as [d|] eqn:Hd; [|done].
  destruct (_ && _); [done|]. intros [= <-]. by apply Hkeyed.
Qed.

(** X1: on a store where every deployment sits under its namespace and
    name, [deleteRedundantNodes] returns no error, leaves the networks alone,
    and removes a deployment exactly when it carries the label app=node and
    its name is not the name of one of the given nodes; every other
    deployment stays as it is.  The namespace argument plays no part. *)
Theorem deleteRedundantNodes_exact (nodes : list Node) (ns ns' : string)
    (s : Store) :
  keyed s ->
  exists s',
    deleteRedundantNodes nodes ns s = (Ok tt, s') /\
    deleteRedundantNodes nodes ns' s = (Ok tt, s') /\
    networks s' = networks s /\
    keyed s' /\
    (forall key dep,
       deployments s !! key = Some dep ->
       deployments s' !! key =
         if redundant nodes dep then None else Some dep) /\
    (forall key,
       deployments s !! key = None -> deployments s' !! key = None).
Proof.
  intros Hkeyed.
  destruct (deleteRedundantNodes_deletes nodes ns s Hkeyed)
    as (s' & Hrun & Hnet & Hlook).
  exists s'. split; [done|]. split; [done|]. split; [done|].
  split; [by eapply cleanup_keeps_keyed|].
  split.
  - intros key dep Hdep. rewrite Hlook, Hdep. done.
  - intros key Hnone. by rewrite Hlook, Hnone.
Qed.

(** X2: the cleanup is idempotent: run again on the store it left, with the
    same nodes, it deletes nothing more. *)
Theorem deleteRedundantNodes_idempotent (nodes : list Node) (ns : string)
    (s s' : Store) :
  keyed s ->
  deleteRedundantNodes nodes ns s = (Ok tt, s') ->
  deleteRedundantNodes nodes ns s' = (Ok tt, s').
Proof.
  intros Hkeyed Hrun.
  pose proof (cleanup_keeps_keyed _ _ _ _ Hkeyed Hrun) as Hkeyed'.
  destruct (deleteRedundantNodes_deletes nodes ns s Hkeyed)
    as (s1 & Hrun1 & Hnet1 & Hlook1).
  rewrite Hrun in Hrun1. injection Hrun1 as <-.
  destruct (deleteRedundantNodes_deletes nodes ns s' Hkeyed')
    as (s2 & Hrun2 & Hnet2 & Hlook2).
  rewrite Hrun2. f_equal. apply store_ext; [done|].
  apply map_eq. intros key. rewrite Hlook2, Hlook1.
  destruct (deployments s !! key) as [dep|]; [|done].
  destruct (_ && _) eqn:Hred; [done|]. by rewrite Hred.
Qed.

Lemma reconcileNode_writes (node : Node) (network : Network) (s : Store) :
  reconcileNode node network s =
    (Ok tt,
     mkStore (networks s)
       (<[(NetworkNamespace network, Name node) :=
            deploymentOfNode network node]> (deployments s))).
Proof.
  unfold reconcileNode, Get.
  destruct (deployments s !! (NetworkNamespace network, Name node))
    as [dep|] eqn:Hdep;
    unfold createOrUpdateNode, mbind, lift, SetControllerReference,
      onDeployments, Update, Create, DepKey; simpl; by rewrite Hdep.
Qed.

Lemma reconcileNodes_writes (nodes : list Node) (network : Network)
    (s : Store) :
  reconcileNodes nodes network s =
    (Ok tt,
     mkStore (networks s)
       (foldl (fun m node =>
                 <[(NetworkNamespace network, Name node) :=
                     deploymentOfNode network node]> m)
          (deployments s) nodes)).
Proof.
  revert s. induction nodes as [|node nodes IH]; intros s; simpl.
  - by destruct s.
  - unfold mbind. rewrite reconcileNode_writes. by rewrite IH.
Qed.

Lemma lookup_declared (network : Network) (nodes : list Node)
    (m : gmap Key Deployment) (key : Key) :
  foldl (fun m node =>
           <[(NetworkNamespace network, Name node) :=
               deploymentOfNode network node]> m) m nodes !! key
  = match declaredAt network nodes key with
    | Some dep => Some dep
    | None => m !! key
    end.
Proof.
  revert m. induction nodes as [|node nodes IH]; intros m; simpl; [done|].
  rewrite IH. destruct (declaredAt network nodes key); [done|].
  case_decide as Hkey.
  - subst key. by rewrite lookup_insert_eq.
  - by rewrite lookup_insert_ne.
Qed.

Lemma declaredAt_Some (network : Network) (nodes : list Node) (key : Key)
    (dep : Deployment) :
  declaredAt network nodes key = Some dep ->
  exists node,
    node ∈ nodes /\ key = (NetworkNamespace network, Name node) /\
    dep = deploymentOfNode network node.
Proof.
  induction nodes as [|node nodes IH]; simpl; [done|].
  destruct (declaredAt network nodes key) as [d|].
  - intros [= <-]. destruct IH as (n & Hn & Hk & Hd); [done|].
    exists n. split; [by apply list_elem_of_further|done].
  - case_decide as Hkey; [|done]. intros [= <-].
    exists node. split; [apply list_elem_of_here|done].
Qed.

Lemma declaredAt_elem (network : Network) (nodes : list Node)
    (node : Node) :
  node ∈ nodes ->
  exists node',
    node' ∈ nodes /\ Name node' = Name node /\
    declaredAt network nodes (NetworkNamespace network, Name node)
      = Some (deploymentOfNode network node').
Proof.
  induction nodes as [|n nodes IH]; [by intros ?%elem_of_nil|].
  intros Hin. simpl.
  destruct (declaredAt network nodes (NetworkNamespace network, Name node))
    as [d|] eqn:Hd.
  - apply declaredAt_Some in Hd as (n' & Hn' & Hk & ->).
    exists n'. split; [by apply list_elem_of_further|].
    split; [congruence|done].
  - apply elem_of_cons in Hin as [->|Hin].
    + rewrite decide_True by done.
      exists n. split; [apply list_elem_of_here|done].
    + destruct (IH Hin) as (n' & _ & _ & Hsome). congruence.
Qed.

Lemma declaredAt_NoDup (network : Network) (nodes : list Node)
    (node : Node) :
  NoDup (Name <$> nodes) -> node ∈ nodes ->
  declaredAt network nodes (NetworkNamespace network, Name node)
    = Some (deploymentOfNode network node).
Proof.
  intros Hnd Hin.
  destruct (declaredAt_elem network nodes node Hin) as (n' & Hn' & Hname & ->).
  do 2 f_equal. revert Hnd Hin Hn' Hname. clear.
  induction nodes as [|n nodes IH]; [by intros _ ?%elem_of_nil|].
  simpl. intros [Hfresh Hnd]%NoDup_cons.
  intros [->|Hin]%elem_of_cons [->|Hin']%elem_of_cons Hname; try done.
  - exfalso. apply Hfresh. rewrite <- Hname. by apply list_elem_of_fmap_2.
  - exfalso. apply Hfresh. rewrite Hname. by apply list_elem_of_fmap_2.
  - by apply IH.
Qed.

(** X3: reconciling a network that exists, on a store where every deployment
    sits under its namespace and name, returns no error and leaves, under
    every key, the deployment of the last declared node of that name in the
    namespace of the network; under the other keys it leaves what the cleanup
    leaves.  So every declared node has its deployment, controlled by the
    network and labelled app=node, and it is the deployment of that very node
    when the declared names are distinct. *)
Theorem Reconcile_network_converges (req : Key) (s : Store)
    (network : Network) :
  keyed s ->
  networks s !! req = Some network ->
  let nodes := Nodes (Spec network) in
  exists s',
    Reconcile req s = (Ok tt, s') /\
    networks s' = networks s /\
    keyed s' /\
    (forall key,
       deployments s' !! key =
         match declaredAt network nodes key with
         | Some dep => Some dep
         | None =>
             match deployments s !! key with
             | Some dep => if redundant nodes dep then None else Some dep
             | None => None
             end
         end) /\
    (forall node,
       node ∈ nodes ->
       exists node',
         node' ∈ nodes /\ Name node' = Name node /\
         deployments s' !! (NetworkNamespace network, Name node)
           = Some (deploymentOfNode network node')) /\
    (NoDup (Name <$> nodes) ->
     forall node,
       node ∈ nodes ->
       deployments s' !! (NetworkNamespace network, Name node)
         = Some (deploymentOfNode network node)).
Proof.
  intros Hkeyed Hnet nodes.
  destruct (deleteRedundantNodes_deletes nodes (fst req) s Hkeyed)
    as (s1 & Hrun & Hnet1 & Hlook1).
  pose proof (cleanup_keeps_keyed _ _ _ _ Hkeyed Hrun) as Hkeyed1.
  eexists. split.
  { unfold Reconcile, Get. rewrite Hnet. unfold mbind.
    fold nodes. rewrite Hrun. apply reconcileNodes_writes. }
  simpl. split; [done|].
  assert (forall key,
            foldl (fun m node =>
                     <[(NetworkNamespace network, Name node) :=
                         deploymentOfNode network node]> m)
              (deployments s1) nodes !! key
            = match declaredAt network nodes key with
              | Some dep => Some dep
              | None =>
                  match deployments s !! key with
                  | Some dep => if redundant nodes dep then None else Some dep
                  | None => None
                  end
              end) as Hlook.
  { intros key. rewrite lookup_declared, Hlook1. done. }
  split; [|split; [exact Hlook|split]].
  - intros key dep. simpl. rewrite Hlook.
    destruct (declaredAt network nodes key) as [d|] eqn:Hd.
    + intros [= <-]. by apply declaredAt_Some in Hd as (n & _ & -> & ->).
    + destruct (deployments s !! key) as [d|] eqn:Hs; [|done].
      destruct (redundant nodes d); [done|]. intros [= <-]. by apply Hkeyed.
  - intros node Hin.
    destruct (declaredAt_elem network nodes node Hin)
      as (n' & Hn' & Hname & Hd).
    exists n'. split; [done|]. split; [done|]. by rewrite Hlook, Hd.
  - intros Hnd node Hin. by rewrite Hlook, declaredAt_NoDup.
Qed.

(** X4: reconciling a network is idempotent: a second reconcile of the same
    request on the store the first one left returns no error and changes
    nothing. *)
Theorem Reconcile_network_idempotent (req : Key) (s s' : Store) :
  keyed s ->
  is_Some (networks s !! req) ->
  Reconcile req s = (Ok tt, s') ->
  Reconcile req s' = (Ok tt, s').
Proof.
  intros Hkeyed [network Hnet] Hrun.
  destruct (Reconcile_network_converges req s network Hkeyed Hnet)
    as (s1 & Hrun1 & Hnet1 & Hkeyed1 & Hlook1 & _).
  rewrite Hrun in Hrun1. injection Hrun1 as <-.
  assert (networks s' !! req = Some network) as Hnet' by by rewrite Hnet1.
  destruct (Reconcile_network_converges req s' network Hkeyed1 Hnet')
    as (s2 & Hrun2 & Hnet2 & _ & Hlook2 & _).
  rewrite Hrun2. f_equal. apply store_ext; [done|].
  apply map_eq. intros key. rewrite Hlook2, Hlook1.
  destruct (declaredAt network (Nodes (Spec network)) key); [done|].
  destruct (deployments s !! key) as [dep|]; [|done].
  destruct (redundant (Nodes (Spec network)) dep) eqn:Hred; [done|].
  by rewrite Hred.
Qed.

(** X5: reconciling a request whose network is not in the store returns no
    error and writes nothing; in particular it deletes no deployment. *)
Theorem Reconcile_network_absent (req : Key) (s : Store) :
  networks s !! req = None -> Reconcile req s = (Ok tt, s).
Proof. intros Hnone. unfold Reconcile, Get. by rewrite Hnone. Qed.

(** X17: removing a node from the spec of a network removes its deployment:
    after a reconcile of a network that declares [node], when the spec of
    the network is replaced by one that declares no node of that name, the
    next reconcile returns no error, the deployment of [node], which the
    first reconcile left in place, is gone, and every node of the new spec
    has a deployment. *)
Theorem Reconcile_network_removes_undeclared (req : Key) (s s1 : Store)
    (network network' : Network) (node : Node) :
  keyed s ->
  networks s !! req = Some network ->
  Reconcile req s = (Ok tt, s1) ->
  node ∈ Nodes (Spec network) ->
  Name node ∉ Name <$> Nodes (Spec network') ->
  let key := (NetworkNamespace network, Name node) in
  let updated := mkStore (<[req := network']> (networks s1)) (deployments s1) in
  exists s2,
    Reconcile req updated = (Ok tt, s2) /\
    is_Some (deployments s1 !! key) /\
    deployments s2 !! key = None /\
    (forall node',
       node' ∈ Nodes (Spec network') ->
       is_Some (deployments s2 !! (NetworkNamespace network', Name node'))).
Proof.
  intros Hkeyed Hnet Hrun Hin Hgone key updated.
  destruct (Reconcile_network_converges req s network Hkeyed Hnet)
    as (s1' & Hrun1 & _ & Hkeyed1 & _ & Hnodes1 & _).
  rewrite Hrun in Hrun1. injection Hrun1 as <-.
  destruct (Hnodes1 node Hin) as (n1 & _ & Hname1 & Hdep1).
  assert (keyed updated) as Hkeyed' by exact Hkeyed1.
  assert (networks updated !! req = Some network') as Hnet'
    by apply lookup_insert_eq.
  destruct (Reconcile_network_converges req updated network' Hkeyed' Hnet')
    as (s2 & Hrun2 & _ & _ & Hlook2 & Hnodes2 & _).
  subst key. exists s2. split; [done|]. split; [by rewrite Hdep1|]. split.
  - rewrite Hlook2.
    destruct (declaredAt network' (Nodes (Spec network')) _) as [d|] eqn:Hd.
    { exfalso. apply declaredAt_Some in Hd as (n' & Hn' & Hkey & _).
      apply Hgone. injection Hkey as _ ->. by apply list_elem_of_fmap_2. }
    simpl. rewrite Hdep1. unfold redundant. simpl.
    rewrite Hname1. rewrite bool_decide_eq_false_2 by done.
    by vm_compute.
  - intros node' Hin'.
    destruct (Hnodes2 node' Hin') as (n2 & _ & _ & Hdep2). by rewrite Hdep2.
Qed.

End NetworkFacts.

(** * The node reconciler as a whole *)

Section NodeFacts.
Import Cluster Shared Polkadot PolkadotController.
Variable ParseQuantity : Quantity.Parser.
Variable PathData : string -> string.
Variable defaults : Defaults.
Variable env : Go.Environ.
Variable webhookEnabled : bool.
Variable now : positive.

Lemma node_store_ext (s1 s2 : Store) :
  nodes s1 = nodes s2 -> pvcs s1 = pvcs s2 ->
  statefulsets s1 = statefulsets s2 -> s1 = s2.
Proof. destruct s1, s2; simpl; by intros -> -> ->. Qed.

Lemma NodeKey_prepared (stored : Node) :
  NodeKey (updateLabels (defaultUnlessWebhook defaults webhookEnabled stored))
  = NodeKey stored.
Proof. unfold defaultUnlessWebhook. by destruct webhookEnabled. Qed.

(** [ctrl.CreateOrUpdate] writes under its key only, whatever its outcome. *)
Lemma CreateOrUpdate_frame {A} `{EqDecision A} (stamp : N -> A -> A) (t : N)
    (key key' : Key) (obj : A) (mutate : A -> Outcome A) (m : gmap Key A) :
  key' <> key ->
  (CreateOrUpdate stamp t key obj mutate m).2 !! key' = m !! key'.
Proof.
  intros Hne. unfold CreateOrUpdate, Get, Create, Update, mbind, ret.
  destruct (m !! key) as [existing|] eqn:Hkey.
  - destruct (mutate existing) as [obj'| |]; simpl; try done.
    case_decide; simpl; [done|]. by rewrite lookup_insert_ne.
  - destruct (mutate obj) as [obj'| |]; simpl; try done.
    by rewrite lookup_insert_ne.
Qed.

(** After a successful [ctrl.CreateOrUpdate] with a mutation that settles,
    a second one finds nothing to write. *)
Lemma CreateOrUpdate_stable {A} `{EqDecision A} (stamp : N -> A -> A) (t : N)
    (key : Key) (obj : A) (mutate : A -> Outcome A) (m m' : gmap Key A)
    (r : OperationResult) :
  (forall x y, mutate x = Ok y -> mutate y = Ok y) ->
  (forall y, mutate obj = Ok y -> mutate (stamp t y) = Ok (stamp t y)) ->
  CreateOrUpdate stamp t key obj mutate m = (Ok r, m') ->
  CreateOrUpdate stamp t key obj mutate m' = (Ok OperationResultNone, m').
Proof.
  intros Hidem Hstamp. unfold CreateOrUpdate, Get, Create, Update, mbind, ret.
  destruct (m !! key) as [existing|] eqn:Hkey.
  - destruct (mutate existing) as [obj'| |] eqn:Hmut; try done.
    case_decide as Heq.
    + intros [= <- <-]. rewrite Hkey, Hmut. by rewrite decide_True.
    + intros [= <- <-].
      rewrite lookup_insert_eq, (Hidem _ _ Hmut). by rewrite decide_True.
  - destruct (mutate obj) as [obj'| |] eqn:Hmut; try done.
    intros [= <- <-].
    rewrite lookup_insert_eq, (Hstamp _ eq_refl). by rewrite decide_True.
Qed.

Lemma setOwner_Ok (owner : Key) (current o : option Key) :
  setOwner owner current = Ok o -> o = Some owner.
Proof.
  unfold setOwner. destruct current as [c|]; [|by intros [= <-]].
  case_decide; [|done]. intros [= <-]. congruence.
Qed.

Lemma mutatePVC_settles (node : Node) (x y : PersistentVolumeClaim) :
  mutatePVC ParseQuantity node x = Ok y ->
  mutatePVC ParseQuantity node y = Ok y /\
  (forall t : positive,
     mutatePVC ParseQuantity node (stampPVC (Npos t) y)
       = Ok (stampPVC (Npos t) y)).
Proof.
  unfold mutatePVC, SetControllerReferencePVC.
  destruct (setOwner (NodeKey node) (PVCOwner x)) as [o| |] eqn:Ho; try done.
  apply setOwner_Ok in Ho as ->. simpl.
  unfold specPVC, MustParse.
  destruct (ParseQuantity (Storage (Resources_ (Spec node)))) as [q|];
    [|done].
  simpl. destruct (N.eqb (PVCCreationTimestamp x) 0) eqn:Hts; simpl;
    intros [= <-]; simpl; rewrite decide_True by done; simpl;
    rewrite ?Hts; simpl; (split; [done|]);
    intros t; by rewrite ?decide_True by done.
Qed.

Lemma mutateSts_settles (node : Node) (x y : StatefulSet) :
  mutateSts ParseQuantity PathData env node x = Ok y ->
  mutateSts ParseQuantity PathData env node y = Ok y /\
  (forall t : N,
     mutateSts ParseQuantity PathData env node (stampSts t y)
       = Ok (stampSts t y)).
Proof.
  unfold mutateSts, SetControllerReferenceSts.
  destruct (setOwner (NodeKey node) (StsOwner x)) as [o| |] eqn:Ho; try done.
  apply setOwner_Ok in Ho as ->. simpl.
  unfold specStatefulSet, MustParse.
  destruct (ParseQuantity (CPU (Resources_ (Spec node)))); [|done].
  destruct (ParseQuantity (Memory (Resources_ (Spec node)))); [|done].
  destruct (ParseQuantity (CPULimit (Resources_ (Spec node)))); [|done].
  destruct (ParseQuantity (MemoryLimit (Resources_ (Spec node)))); [|done].
  simpl. intros [= <-]. simpl. rewrite decide_True by done. simpl.
  split; [done|]. intros t. by rewrite ?decide_True by done.
Qed.

Lemma reconcilePVC_frame (node : Node) (s : Store) :
  let s' := (reconcilePVC ParseQuantity now node s).2 in
  nodes s' = nodes s /\ statefulsets s' = statefulsets s /\
  forall key, key <> NodeKey node -> pvcs s' !! key = pvcs s !! key.
Proof.
  unfold reconcilePVC.
  pose proof (CreateOrUpdate_frame stampPVC (Npos now) (NodeKey node)) as Hfr.
  specialize (fun key' => Hfr key'
    (mkPVC (Name node) (Namespace node) ∅ None 0 emptyPVCSpec)
    (mutatePVC ParseQuantity node) (pvcs s)).
  unfold mutatePVC in Hfr.
  destruct (CreateOrUpdate _ _ _ _ _ _) as [r m]. simpl in *.
  split; [done|]. split; [done|]. intros key Hne. by apply Hfr.
Qed.

Lemma reconcileStatefulset_frame (node : Node) (s : Store) :
  let s' := (reconcileStatefulset ParseQuantity PathData env now node s).2 in
  nodes s' = nodes s /\ pvcs s' = pvcs s /\
  forall key, key <> NodeKey node ->
    statefulsets s' !! key = statefulsets s !! key.
Proof.
  unfold reconcileStatefulset.
  pose proof (CreateOrUpdate_frame stampSts (Npos now) (NodeKey node)) as Hfr.
  specialize (fun key' => Hfr key'
    (mkStatefulSet (Name node) (Namespace node) ∅ None 0 emptyStatefulSetSpec)
    (mutateSts ParseQuantity PathData env node) (statefulsets s)).
  unfold mutateSts in Hfr.
  destruct (CreateOrUpdate _ _ _ _ _ _) as [r m]. simpl in *.
  split; [done|]. split; [done|]. intros key Hne. by apply Hfr.
Qed.

(** X6: whatever its outcome (success, error or panic), [Reconcile] never
    writes a node, and it writes no claim and no stateful set other than
    those under the namespace and name of the node it fetched; when the
    node of the request is not in the store it returns no error and writes
    nothing at all. *)
Theorem Reconcile_node_frame (req : Key) (s : Store) :
  let result :=
    Reconcile ParseQuantity PathData defaults env webhookEnabled now req s in
  nodes result.2 = nodes s /\
  (nodes s !! req = None -> result = (Ok tt, s)) /\
  (forall stored key,
     nodes s !! req = Some stored -> key <> NodeKey stored ->
     pvcs result.2 !! key = pvcs s !! key /\
     statefulsets result.2 !! key = statefulsets s !! key).
Proof.
  unfold Reconcile, Get.
  destruct (nodes s !! req) as [stored|] eqn:Hnode; simpl; [|done].
  set (node := updateLabels _).
  assert (NodeKey node = NodeKey stored) as Hkey by apply NodeKey_prepared.
  unfold mbind.
  pose proof (reconcilePVC_frame node s) as (Hn1 & Hs1 & Hp1).
  destruct (reconcilePVC ParseQuantity now node s) as [r1 s1]. simpl in *.
  assert (forall s2 : Store,
            (s2 = s1 \/
             s2 = (reconcileStatefulset ParseQuantity PathData env now
                     node s1).2) ->
            nodes s2 = nodes s /\
            forall key, key <> NodeKey stored ->
              pvcs s2 !! key = pvcs s !! key /\
              statefulsets s2 !! key = statefulsets s !! key) as Hboth.
  { intros s2 [->| ->].
    - split; [done|]. intros key Hne. rewrite <- Hkey in Hne.
      by rewrite Hs1, Hp1.
    - pose proof (reconcileStatefulset_frame node s1) as (Hn2 & Hp2 & Hs2).
      split; [congruence|]. intros key Hne. rewrite <- Hkey in Hne.
      by rewrite Hp2, Hs2, Hs1, Hp1. }
  destruct r1 as [[]| |]; simpl.
  - destruct (Hboth _ (or_intror eq_refl)) as [Hn Hk].
    split; [done|]. split; [done|]. intros stored' key [= <-]. apply Hk.
  - destruct (Hboth _ (or_introl eq_refl)) as [Hn Hk].
    split; [done|]. split; [done|]. intros stored' key [= <-]. apply Hk.
  - destruct (Hboth _ (or_introl eq_refl)) as [Hn Hk].
    split; [done|]. split; [done|]. intros stored' key [= <-]. apply Hk.
Qed.

Lemma reconcileStatefulset_creates (node : Node) (s : Store)
    (cpu memory cpuLimit memoryLimit : Z) :
  ParseQuantity (CPU (Resources_ (Spec node))) = Some cpu ->
  ParseQuantity (Memory (Resources_ (Spec node))) = Some memory ->
  ParseQuantity (CPULimit (Resources_ (Spec node))) = Some cpuLimit ->
  ParseQuantity (MemoryLimit (Resources_ (Spec node))) = Some memoryLimit ->
  statefulsets s !! NodeKey node = None ->
  reconcileStatefulset ParseQuantity PathData env now node s =
    (Ok tt,
     withStatefulSets s
       (<[NodeKey node :=
            statefulSetFromNode PathData node (Some (NodeKey node)) (Npos now)
              (PolkadotClient.Image env) PolkadotClient.HomeDir []
              cpu memory cpuLimit memoryLimit]> (statefulsets s))).
Proof.
  intros Hc Hm Hcl Hml Hnone.
  unfold reconcileStatefulset, CreateOrUpdate, Get, Create, mbind.
  rewrite Hnone. simpl.
  unfold specStatefulSet, MustParse. by rewrite Hc, Hm, Hcl, Hml.
Qed.

(** X7: reconciling a stored node that has no claim and no stateful set yet,
    and whose five quantities parse (after the inline defaulting when the
    webhooks are disabled), returns no error and creates exactly the two
    children under the namespace and name of the node: the claim built from
    the node spec, and a stateful set that runs the image of the Polkadot
    client with no arguments, mounts the volume "data" at the data path of
    "/polkadot", takes that volume from the claim named after the node, and
    carries the parsed requests and limits; both are owned by the node,
    stamped with the time of creation and labelled with the labels of the
    node. *)
Theorem Reconcile_node_creates_children (req : Key) (s : Store)
    (stored : Node) (storage cpu memory cpuLimit memoryLimit : Z) :
  nodes s !! req = Some stored ->
  let node :=
    updateLabels (defaultUnlessWebhook defaults webhookEnabled stored) in
  let res := Resources_ (Spec node) in
  ParseQuantity (Storage res) = Some storage ->
  ParseQuantity (CPU res) = Some cpu ->
  ParseQuantity (Memory res) = Some memory ->
  ParseQuantity (CPULimit res) = Some cpuLimit ->
  ParseQuantity (MemoryLimit res) = Some memoryLimit ->
  pvcs s !! NodeKey node = None ->
  statefulsets s !! NodeKey node = None ->
  Reconcile ParseQuantity PathData defaults env webhookEnabled now req s =
    (Ok tt,
     mkStore (nodes s)
       (<[NodeKey node :=
            claimFromNode node (Some (NodeKey node)) (Npos now) storage]>
          (pvcs s))
       (<[NodeKey node :=
            statefulSetFromNode PathData node (Some (NodeKey node)) (Npos now)
              (PolkadotClient.Image env) "/polkadot" []
              cpu memory cpuLimit memoryLimit]> (statefulsets s))).
Proof.
  intros Hnode node res Hs Hc Hm Hcl Hml Hnopvc Hnosts.
  unfold Reconcile, Get. rewrite Hnode. fold node. unfold mbind.
  rewrite (reconcilePVC_creates _ now node s storage Hs Hnopvc).
  set (s1 := withPVCs s _).
  by rewrite (reconcileStatefulset_creates node s1 cpu memory cpuLimit
                memoryLimit Hc Hm Hcl Hml Hnosts).
Qed.

Lemma reconcilePVC_stable (node : Node) (s s1 s2 : Store) :
  reconcilePVC ParseQuantity now node s = (Ok tt, s1) ->
  pvcs s2 = pvcs s1 ->
  reconcilePVC ParseQuantity now node s2 = (Ok tt, s2).
Proof.
  unfold reconcilePVC. intros Hrun Hsame.
  pose proof (CreateOrUpdate_stable stampPVC (Npos now) (NodeKey node)
                (mkPVC (Name node) (Namespace node) ∅ None 0 emptyPVCSpec)
                (mutatePVC ParseQuantity node) (pvcs s)) as Hst.
  unfold mutatePVC in Hst.
  destruct (CreateOrUpdate _ _ _ _ _ (pvcs s)) as [r m] eqn:Hcu.
  destruct r as [r| |]; try done. simpl in Hrun. injection Hrun as <-.
  simpl in Hsame. rewrite Hsame.
  rewrite (Hst m r);
    [|intros x y Hxy; exact (proj1 (mutatePVC_settles node x y Hxy))
     |intros y Hy; exact (proj2 (mutatePVC_settles node _ y Hy) now)
     |done].
  simpl. f_equal. rewrite <- Hsame. by destruct s2.
Qed.

Lemma reconcileStatefulset_stable (node : Node) (s s1 : Store) :
  reconcileStatefulset ParseQuantity PathData env now node s = (Ok tt, s1) ->
  reconcileStatefulset ParseQuantity PathData env now node s1 = (Ok tt, s1).
Proof.
  unfold reconcileStatefulset. intros Hrun.
  pose proof (CreateOrUpdate_stable stampSts (Npos now) (NodeKey node)
                (mkStatefulSet (Name node) (Namespace node) ∅ None 0
                   emptyStatefulSetSpec)
                (mutateSts ParseQuantity PathData env node)
                (statefulsets s)) as Hst.
  unfold mutateSts in Hst.
  destruct (CreateOrUpdate _ _ _ _ _ (statefulsets s)) as [r m] eqn:Hcu.
  destruct r as [r| |]; try done. simpl in Hrun. injection Hrun as <-.
  simpl.
  rewrite (Hst m r);
    [|intros x y Hxy; exact (proj1 (mutateSts_settles node x y Hxy))
     |intros y Hy; exact (proj2 (mutateSts_settles node _ y Hy) (Npos now))
     |done].
  done.
Qed.

(** X8: [Reconcile] is idempotent: when a reconcile returns no error, a
    second reconcile of the same request on the store it left returns no
    error and writes nothing (the claim and the stateful set it rebuilds are
    equal to the stored ones, so no update is sent). *)
Theorem Reconcile_node_idempotent (req : Key) (s s' : Store) :
  Reconcile ParseQuantity PathData defaults env webhookEnabled now req s
    = (Ok tt, s') ->
  Reconcile ParseQuantity PathData defaults env webhookEnabled now req s'
    = (Ok tt, s').
Proof.
  intros Hrun.
  pose proof (Reconcile_node_frame req s) as (Hnodes & _).
  rewrite Hrun in Hnodes. simpl in Hnodes.
  revert Hrun. unfold Reconcile, Get. rewrite Hnodes.
  destruct (nodes s !! req) as [stored|]; [|by intros [= <-]].
  set (node := updateLabels _). unfold mbind.
  destruct (reconcilePVC ParseQuantity now node s) as [r1 s1] eqn:Hpvc.
  destruct r1 as [[]| |]; try done.
  intros Hsts.
  pose proof (reconcileStatefulset_frame node s1) as (_ & Hp & _).
  rewrite Hsts in Hp. simpl in Hp.
  rewrite (reconcilePVC_stable node s s1 s' Hpvc Hp).
  by apply reconcileStatefulset_stable in Hsts.
Qed.

(** X9: a child controlled by another owner stops the reconcile with the
    ownership error before any quantity is parsed: when the claim under the
    node's key has another controller, [Reconcile] returns that error and
    writes nothing, even if the quantities of the node do not parse. *)
Theorem Reconcile_node_foreign_claim (req : Key) (s : Store) (stored : Node)
    (pvc : PersistentVolumeClaim) (other : Key) :
  nodes s !! req = Some stored ->
  pvcs s !! NodeKey stored = Some pvc ->
  PVCOwner pvc = Some other ->
  other <> NodeKey stored ->
  Reconcile ParseQuantity PathData defaults env webhookEnabled now req s
    = (Err AlreadyOwned, s).
Proof.
  intros Hnode Hpvc Hown Hne.
  unfold Reconcile, Get. rewrite Hnode.
  set (node := updateLabels _).
  assert (NodeKey node = NodeKey stored) as Hkey by apply NodeKey_prepared.
  unfold mbind, reconcilePVC, CreateOrUpdate, Get.
  rewrite Hkey, Hpvc. simpl.
  unfold SetControllerReferencePVC, setOwner. rewrite Hown.
  rewrite decide_False by (by rewrite Hkey). simpl.
  f_equal. by destruct s.
Qed.

(** X10: when the four CPU and memory quantities parse, [specStatefulSet]
    returns, for every stateful set it is given, that stateful set with its
    name, namespace, owner and creation timestamp kept and everything else
    rebuilt from the node: one container "node"
    whose requests and limits hold exactly the cpu and memory quantities,
    which mounts the volume "data" at the data path of the home directory,
    that volume being the claim named after the node. *)
Theorem specStatefulSet_builds (node : Node) (sts : StatefulSet)
    (image homeDir : string) (args : list string)
    (cpu memory cpuLimit memoryLimit : Z) :
  ParseQuantity (CPU (Resources_ (Spec node))) = Some cpu ->
  ParseQuantity (Memory (Resources_ (Spec node))) = Some memory ->
  ParseQuantity (CPULimit (Resources_ (Spec node))) = Some cpuLimit ->
  ParseQuantity (MemoryLimit (Resources_ (Spec node))) = Some memoryLimit ->
  exists sts' container,
    specStatefulSet ParseQuantity PathData node sts image homeDir args
      = Ok sts' /\
    (StsName sts', StsNamespace sts', StsOwner sts', StsCreationTimestamp sts')
      = (StsName sts, StsNamespace sts, StsOwner sts,
         StsCreationTimestamp sts) /\
    StsLabels sts' = Labels node /\
    MatchLabels (StsSpec sts') = Labels node /\
    TemplateLabels (StsSpec sts') = Labels node /\
    ServiceName (StsSpec sts') = Name node /\
    Containers (StsSpec sts') = [container] /\
    (ContainerImage container, ContainerArgs container) = (image, args) /\
    VolumeMounts container = [mkVolumeMount "data" (PathData homeDir)] /\
    Volumes (StsSpec sts') = [mkVolume "data" (Name node)] /\
    ContainerRequests container !! "cpu" = Some cpu /\
    ContainerRequests container !! "memory" = Some memory /\
    ContainerLimits container !! "cpu" = Some cpuLimit /\
    ContainerLimits container !! "memory" = Some memoryLimit /\
    dom (ContainerRequests container) = {[ "cpu"; "memory" ]} /\
    dom (ContainerLimits container) = {[ "cpu"; "memory" ]}.
Proof.
  intros Hc Hm Hcl Hml. unfold specStatefulSet, MustParse.
  rewrite Hc, Hm, Hcl, Hml. simpl. eexists _, _.
  split; [reflexivity|]. simpl.
  repeat (split; [reflexivity|]). reflexivity.
Qed.

(** After a successful [ctrl.CreateOrUpdate] with a mutation that settles,
    the object stored under the key is one the mutation leaves as it is. *)
Lemma CreateOrUpdate_stored {A} `{EqDecision A} (stamp : N -> A -> A) (t : N)
    (key : Key) (obj : A) (mutate : A -> Outcome A) (m m' : gmap Key A)
    (r : OperationResult) :
  (forall x y, mutate x = Ok y -> mutate y = Ok y) ->
  (forall y, mutate obj = Ok y -> mutate (stamp t y) = Ok (stamp t y)) ->
  CreateOrUpdate stamp t key obj mutate m = (Ok r, m') ->
  exists z, m' !! key = Some z /\ mutate z = Ok z.
Proof.
  intros Hidem Hstamp. unfold CreateOrUpdate, Get, Create, Update, mbind, ret.
  destruct (m !! key) as [existing|] eqn:Hkey.
  - destruct (mutate existing) as [obj'| |] eqn:Hmut; try done.
    case_decide as Heq.
    + intros [= <- <-]. exists existing. split; [done|]. by rewrite Heq at 2.
    + intros [= <- <-]. exists obj'.
      split; [apply lookup_insert_eq|by apply (Hidem existing)].
  - destruct (mutate obj) as [obj'| |] eqn:Hmut; try done.
    intros [= <- <-]. exists (stamp t obj').
    split; [apply lookup_insert_eq|by apply Hstamp].
Qed.

Lemma mutatePVC_fixed (node : Node) (z : PersistentVolumeClaim) :
  mutatePVC ParseQuantity node z = Ok z ->
  exists q,
    ParseQuantity (Storage (Resources_ (Spec node))) = Some q /\
    Requests (PVCSpec z) = {[ ResourceStorage := q ]} /\
    PVCOwner z = Some (NodeKey node).
Proof.
  unfold mutatePVC, SetControllerReferencePVC.
  destruct (setOwner (NodeKey node) (PVCOwner z)) as [o| |] eqn:Ho; try done.
  apply setOwner_Ok in Ho as ->. simpl.
  unfold specPVC, MustParse.
  destruct (ParseQuantity (Storage (Resources_ (Spec node)))) as [q|];
    [|done].
  simpl. intros Heq. exists q. split; [done|].
  destruct (negb _); injection Heq as Heq;
    split;
    [by apply (f_equal (fun p => Requests (PVCSpec p))) in Heq
    |by apply (f_equal PVCOwner) in Heq
    |by apply (f_equal (fun p => Requests (PVCSpec p))) in Heq
    |by apply (f_equal PVCOwner) in Heq].
Qed.

Lemma mutateSts_fixed (node : Node) (z : StatefulSet) :
  mutateSts ParseQuantity PathData env node z = Ok z ->
  exists cpu memory cpuLimit memoryLimit,
    ParseQuantity (CPU (Resources_ (Spec node))) = Some cpu /\
    ParseQuantity (Memory (Resources_ (Spec node))) = Some memory /\
    ParseQuantity (CPULimit (Resources_ (Spec node))) = Some cpuLimit /\
    ParseQuantity (MemoryLimit (Resources_ (Spec node))) = Some memoryLimit /\
    StsOwner z = Some (NodeKey node) /\
    StsLabels z = Labels node /\
    StsSpec z =
      StsSpec (statefulSetFromNode PathData node None 0
                 (PolkadotClient.Image env) "/polkadot" []
                 cpu memory cpuLimit memoryLimit).
Proof.
  unfold mutateSts, SetControllerReferenceSts.
  destruct (setOwner (NodeKey node) (StsOwner z)) as [o| |] eqn:Ho; try done.
  apply setOwner_Ok in Ho as ->. simpl.
  unfold specStatefulSet, MustParse.
  destruct (ParseQuantity (CPU (Resources_ (Spec node)))) as [c|]; [|done].
  destruct (ParseQuantity (Memory (Resources_ (Spec node)))) as [m|];
    [|done].
  destruct (ParseQuantity (CPULimit (Resources_ (Spec node)))) as [cl|];
    [|done].
  destruct (ParseQuantity (MemoryLimit (Resources_ (Spec node)))) as [ml|];
    [|done].
  simpl. intros [= Heq]. exists c, m, cl, ml.
  repeat (split; [done|]).
  split; [by apply (f_equal StsOwner) in Heq|].
  split; [by apply (f_equal StsLabels) in Heq|].
  by apply (f_equal StsSpec) in Heq.
Qed.

(** X18: whenever [Reconcile] of a stored node returns no error, whether the
    children were created or updated, the five quantities of the node parse
    and the children stored under the node's key reflect the node: the
    claim is owned by the node and requests exactly the node's storage, and
    the stateful set is owned by the node, carries its labels and has the
    spec built from the node (image of the client, no arguments, data
    volume, parsed requests and limits). *)
Theorem Reconcile_node_converges (req : Key) (s s' : Store) (stored : Node) :
  nodes s !! req = Some stored ->
  Reconcile ParseQuantity PathData defaults env webhookEnabled now req s
    = (Ok tt, s') ->
  let node :=
    updateLabels (defaultUnlessWebhook defaults webhookEnabled stored) in
  let res := Resources_ (Spec node) in
  exists storage cpu memory cpuLimit memoryLimit pvc sts,
    ParseQuantity (Storage res) = Some storage /\
    ParseQuantity (CPU res) = Some cpu /\
    ParseQuantity (Memory res) = Some memory /\
    ParseQuantity (CPULimit res) = Some cpuLimit /\
    ParseQuantity (MemoryLimit res) = Some memoryLimit /\
    pvcs s' !! NodeKey node = Some pvc /\
    Requests (PVCSpec pvc) = {[ "storage" := storage ]} /\
    PVCOwner pvc = Some (NodeKey node) /\
    statefulsets s' !! NodeKey node = Some sts /\
    StsOwner sts = Some (NodeKey node) /\
    StsLabels sts = Labels node /\
    StsSpec sts =
      StsSpec (statefulSetFromNode PathData node None 0
                 (PolkadotClient.Image env) "/polkadot" []
                 cpu memory cpuLimit memoryLimit).
Proof.
  intros Hnode Hrun node res. revert Hrun.
  unfold Reconcile, Get. rewrite Hnode. fold node. unfold mbind.
  destruct (reconcilePVC ParseQuantity now node s) as [r1 s1] eqn:Hpvc.
  destruct r1 as [[]| |]; try done. intros Hsts.
  pose proof (reconcileStatefulset_frame node s1) as (_ & Hp & _).
  rewrite Hsts in Hp. simpl in Hp.
  assert (exists pvc, pvcs s1 !! NodeKey node = Some pvc /\
                      mutatePVC ParseQuantity node pvc = Ok pvc)
    as (pvc & Hpvc1 & Hfix1).
  { revert Hpvc. unfold reconcilePVC.
    destruct (CreateOrUpdate _ _ _ _ _ (pvcs s)) as [r m] eqn:Hcu.
    destruct r as [r| |]; try done. intros [= <-]. simpl.
    apply (CreateOrUpdate_stored stampPVC (Npos now) (NodeKey node)
             (mkPVC (Name node) (Namespace node) ∅ None 0 emptyPVCSpec)
             (mutatePVC ParseQuantity node) (pvcs s) m r).
    - intros x y Hxy. exact (proj1 (mutatePVC_settles node x y Hxy)).
    - intros y Hy. exact (proj2 (mutatePVC_settles node _ y Hy) now).
    - exact Hcu. }
  assert (exists sts, statefulsets s' !! NodeKey node = Some sts /\
                      mutateSts ParseQuantity PathData env node sts = Ok sts)
    as (sts & Hsts1 & Hfix2).
  { revert Hsts. unfold reconcileStatefulset.
    destruct (CreateOrUpdate _ _ _ _ _ (statefulsets s1)) as [r m] eqn:Hcu.
    destruct r as [r| |]; try done. intros [= <-]. simpl.
    apply (CreateOrUpdate_stored stampSts (Npos now) (NodeKey node)
             (mkStatefulSet (Name node) (Namespace node) ∅ None 0
                emptyStatefulSetSpec)
             (mutateSts ParseQuantity PathData env node)
             (statefulsets s1) m r).
    - intros x y Hxy. exact (proj1 (mutateSts_settles node x y Hxy)).
    - intros y Hy. exact (proj2 (mutateSts_settles node _ y Hy) (Npos now)).
    - exact Hcu. }
  destruct (mutatePVC_fixed node pvc Hfix1) as (q & Hq & Hreq & Hown).
  destruct (mutateSts_fixed node sts Hfix2)
    as (c & m & cl & ml & Hc & Hm & Hcl & Hml & Hsown & Hslab & Hsspec).
  exists q, c, m, cl, ml, pvc, sts.
  rewrite Hp. repeat (split; [done|]). done.
Qed.

End NodeFacts.

(** * Labels, defaults and adapters *)

Section LabelFacts.
Import Polkadot PolkadotController.

Lemma updateLabels_lookup (node : Node) (key : string) :
  Labels (updateLabels node) !! key =
    match list_to_map (M := gmap string string) (managedLabels node) !! key with
    | Some value => Some value
    | None => Labels node !! key
    end.
Proof.
  unfold updateLabels, withLabels, managedLabels. cbn [Labels].
  rewrite !list_to_map_cons, list_to_map_nil.
  rewrite !lookup_insert, lookup_empty.
  repeat case_decide; subst; done.
Qed.

(** X11: [updateLabels] writes the five identifying labels with their fixed
    values (the instance label being the name of the node), overwriting what
    was there, keeps every other label of the node, changes nothing else of
    the node, and is idempotent. *)
Theorem updateLabels_merges (node : Node) :
  (forall key value,
     (key, value) ∈ managedLabels node ->
     Labels (updateLabels node) !! key = Some value) /\
  (forall key,
     key ∉ (managedLabels node).*1 ->
     Labels (updateLabels node) !! key = Labels node !! key) /\
  (Name (updateLabels node), Namespace (updateLabels node),
   Spec (updateLabels node)) = (Name node, Namespace node, Spec node) /\
  updateLabels (updateLabels node) = updateLabels node.
Proof.
  split; [|split; [|split; [done|]]].
  - intros key value Hin. rewrite updateLabels_lookup.
    unfold managedLabels in Hin.
    repeat (apply elem_of_cons in Hin as [[= -> ->]|Hin]; [done|]).
    by apply elem_of_nil in Hin.
  - intros key Hnot. rewrite updateLabels_lookup.
    destruct (list_to_map (managedLabels node) !! key) as [v|] eqn:Hv; [|done].
    exfalso. apply Hnot. apply elem_of_list_to_map_2 in Hv.
    by apply (list_elem_of_fmap_2 fst) in Hv.
  - assert (Labels (updateLabels (updateLabels node))
            = Labels (updateLabels node)) as Hlabels.
    { apply map_eq. intros key. rewrite (updateLabels_lookup (updateLabels _)).
      destruct (list_to_map (managedLabels (updateLabels node)) !! key)
        as [v|] eqn:Hv; [|done].
      rewrite updateLabels_lookup.
      change (managedLabels (updateLabels node)) with (managedLabels node)
        in Hv.
      by rewrite Hv. }
    unfold updateLabels at 1. unfold withLabels.
    change (Labels (updateLabels (updateLabels node)))
      with (Labels (withLabels (updateLabels node)
                      (Labels (updateLabels (updateLabels node))))) in Hlabels.
    destruct (updateLabels node) as [n ns l sp] eqn:Hu. simpl in *.
    by rewrite Hlabels.
Qed.

End LabelFacts.

Section DefaultFacts2.
Import Shared Polkadot.
Variable d : Defaults.

Lemma orDefault_fixed (s x : string) :
  x <> "" -> orDefault s x = s <-> s <> "".
Proof.
  intros Hx. unfold orDefault. destruct (Go.isEmpty s) eqn:Hs.
  - apply isEmpty_true in Hs as ->. split; [congruence|done].
  - apply isEmpty_false in Hs. done.
Qed.

(** X12: when none of the default constants is empty, [Default] leaves a
    node on which nothing is left to fill in: the five resource quantities,
    the sync mode and the logging verbosity are set, and the RPC port is set
    when RPC is enabled; and it never changes the name, the namespace, the
    labels, the storage class or the RPC switch. *)
Theorem Default_completes (r : Node) :
  defaultsSet d ->
  fullySpecified (Default d r) /\
  Name (Default d r) = Name r /\
  Namespace (Default d r) = Namespace r /\
  Labels (Default d r) = Labels r /\
  StorageClass (Resources_ (Spec (Default d r)))
    = StorageClass (Resources_ (Spec r)) /\
  RPC (Spec (Default d r)) = RPC (Spec r).
Proof.
  intros (H1 & H2 & H3 & H4 & H5 & H6 & H7 & H8).
  split; [|done]. unfold fullySpecified. simpl.
  repeat (split; [by apply orDefault_nonempty|]).
  intros ->. by destruct (N.eqb_spec (RPCPort (Spec r)) 0).
Qed.

(** X13: when none of the default constants is empty, the nodes that
    [Default] leaves unchanged are exactly those on which nothing is left to
    fill in. *)
Theorem Default_fixpoint (r : Node) :
  defaultsSet d ->
  Default d r = r <-> fullySpecified r.
Proof.
  intros Hd. split.
  - intros Hfix. rewrite <- Hfix. by apply Default_completes.
  - intros (H1 & H2 & H3 & H4 & H5 & H6 & H7 & H8).
    destruct r as [n ns l [[c cl m ml st sc] sm lg rpc port]].
    unfold Default, DefaultNodeResources, withResources. simpl in *.
    rewrite !orDefault_set by done.
    do 2 f_equal. destruct rpc; [|done].
    by destruct (N.eqb_spec port 0); [destruct H8|].
Qed.

End DefaultFacts2.

Section AdapterFacts.
Import FlagGrammar.

Lemma image_choice (env : Go.Environ) (key pinned : string) :
  pinned <> "" ->
  let image :=
    if Go.isEmpty (Go.Getenv env key) then pinned else Go.Getenv env key in
  image <> "" /\
  (forall value, env !! key = Some value -> value <> "" -> image = value) /\
  (env !! key = None -> image = pinned) /\
  (env !! key = Some "" -> image = pinned).
Proof.
  intros Hp. unfold Go.Getenv. simpl.
  destruct (env !! key) as [v|]; simpl.
  - destruct (Go.isEmpty v) eqn:Hv.
    + apply isEmpty_true in Hv as ->. split; [done|].
      split; [by intros ? [= <-]|done].
    + apply isEmpty_false in Hv. split; [done|].
      split; [by intros ? [= <-]|]. split; [done|]. by intros [= ->].
  - split; [done|]. done.
Qed.

(** X14: the image of the Polkadot client and of the NEAR client is never
    the empty string: it is the value of POLKADOT_IMAGE (NEAR_IMAGE) when
    that variable is set to a non-empty value, and the pinned image when the
    variable is unset or empty; each adapter reads its own variable only. *)
Theorem Image_override_or_pinned (env : Go.Environ) :
  PolkadotClient.Image env <> "" /\
  NearClient.Image env <> "" /\
  (forall value,
     env !! "POLKADOT_IMAGE" = Some value -> value <> "" ->
     PolkadotClient.Image env = value) /\
  (forall value,
     env !! "NEAR_IMAGE" = Some value -> value <> "" ->
     NearClient.Image env = value) /\
  (env !! "POLKADOT_IMAGE" = None \/ env !! "POLKADOT_IMAGE" = Some "" ->
     PolkadotClient.Image env = "parity/polkadot:v0.9.9-1") /\
  (env !! "NEAR_IMAGE" = None \/ env !! "NEAR_IMAGE" = Some "" ->
     NearClient.Image env = "kotalco/nearcore:1.23.1") /\
  (forall value,
     PolkadotClient.Image (<["NEAR_IMAGE" := value]> env)
       = PolkadotClient.Image env /\
     NearClient.Image (<["POLKADOT_IMAGE" := value]> env)
       = NearClient.Image env).
Proof.
  destruct (image_choice env "POLKADOT_IMAGE" "parity/polkadot:v0.9.9-1")
    as (Hp1 & Hp2 & Hp3 & Hp4); [done|].
  destruct (image_choice env "NEAR_IMAGE" "kotalco/nearcore:1.23.1")
    as (Hn1 & Hn2 & Hn3 & Hn4); [done|].
  split; [exact Hp1|]. split; [exact Hn1|].
  split; [exact Hp2|]. split; [exact Hn2|].
  split; [by intros [?|?]; [apply Hp3|apply Hp4]|].
  split; [by intros [?|?]; [apply Hn3|apply Hn4]|].
  intros value.
  unfold PolkadotClient.Image, NearClient.Image, Go.Getenv,
    PolkadotClient.EnvPolkadotImage, NearClient.EnvNearImage.
  unfold Go.Environ in *. by rewrite !lookup_insert_ne.
Qed.

Lemma renderAll_nil (fs : list Flag) :
  renderAll fs = [] <-> Forall (fun f => included f = false) fs.
Proof.
  unfold renderAll. induction fs as [|f fs IH]; simpl.
  - split; [constructor|done].
  - rewrite Forall_cons. unfold render at 1. destruct (included f); simpl.
    + split; [done|by intros [? _]].
    + rewrite IH. split; [by split|by intros [_ ?]].
Qed.

Lemma length_zero_iff {A} (l : list A) :
  Nat.eqb (length l) 0 = true <-> l = [].
Proof. destruct l; simpl; split; done. Qed.

(** X15: [createArgsForClient] returns no argument at all exactly when
    nothing is set: the network to join, the sync mode, the miner account
    and the two hosts are empty, the two ports are zero, mining, RPC and WS
    are off, and the four lists are empty. *)
Theorem createArgsForClient_nil_iff (node : Ethereum.Node) (join : string) :
  Ethereum.createArgsForClient node join = [] <->
  join = "" /\ Ethereum.SyncMode node = "" /\ Ethereum.Miner node = false /\
  Ethereum.MinerAccount node = "" /\ Ethereum.RPC node = false /\
  Ethereum.RPCPort node = 0%N /\ Ethereum.RPCHost node = "" /\
  Ethereum.RPCAPI node = [] /\ Ethereum.WS node = false /\
  Ethereum.WSPort node = 0%N /\ Ethereum.WSHost node = "" /\
  Ethereum.WSAPI node = [] /\ Ethereum.Hosts node = [] /\
  Ethereum.CORSDomains node = [].
Proof.
  rewrite createArgsForClient_render, renderAll_nil.
  unfold besuFlags, isSet, isPort, hasElements.
  rewrite !Forall_cons, Forall_nil. simpl.
  rewrite !negb_false_iff, !isEmpty_true, !N.eqb_eq, !length_zero_iff.
  tauto.
Qed.

(** X16: the arguments of the NEAR client always start with the program
    [neard], the home flag with the data path of "/home/near", the
    subcommand [run] and the network address built from the P2P host and
    port; what follows has four tokens for RPC when it is enabled and one
    when it is not, two for a telemetry URL, one for archive, two for the
    minimum of peers and two for the boot nodes. *)
Theorem NearClient_Args_shape (fl : NearClient.Flags)
    (PathData : string -> string) (node : Near.Node) :
  let s := Near.Spec node in
  exists rest,
    NearClient.Args fl PathData node =
      ["neard"; NearClient.NearArgHome fl; PathData "/home/near"; "run";
       NearClient.NearArgNetworkAddress fl;
       Near.P2PHost s +:+ ":" +:+ pretty (Near.P2PPort s)] ++ rest /\
    length rest =
      (if Near.RPC s then 4 else 1)
      + (if Go.isEmpty (Near.TelemetryURL s) then 0 else 2)
      + (if Near.Archive s then 1 else 0)
      + 2
      + (match Near.Bootnodes s with [] => 0 | _ => 2 end).
Proof.
  intros s. rewrite NearClient_Args_render.
  unfold renderAll, nearFlags, render, isSet, hasElements. fold s. simpl.
  eexists. split; [reflexivity|].
  destruct (Near.RPC s), (Go.isEmpty (Near.TelemetryURL s)),
    (Near.Archive s), (Near.Bootnodes s); reflexivity.
Qed.

End AdapterFacts.

(** * The properties above on the sample inputs *)

Lemma twoNetworks_keyed : Ethereum.keyed Samples.twoNetworks.
Proof.
  change (map_Forall (fun key dep => Ethereum.DepKey dep = key)
            (Ethereum.deployments Samples.twoNetworks)).
  apply (bool_decide_unpack _). by vm_compute.
Qed.

Lemma deleteRedundantNodes_exact_witness :
  exists s',
    Ethereum.deleteRedundantNodes [Samples.plainNode "n1"] "a"
      Samples.twoNetworks = (Cluster.Ok tt, s') /\
    Ethereum.keyed s'.
Proof.
  destruct (deleteRedundantNodes_exact [Samples.plainNode "n1"] "a" "b"
              Samples.twoNetworks) as (s' & Hrun & _ & _ & Hkeyed & _).
  - exact twoNetworks_keyed.
  - exists s'. split; [exact Hrun|exact Hkeyed].
Defined.

Lemma deleteRedundantNodes_idempotent_witness :
  let nodes := [Samples.plainNode "n1"] in
  let s' := (Ethereum.deleteRedundantNodes nodes "a" Samples.twoNetworks).2 in
  Ethereum.deleteRedundantNodes nodes "a" s' = (Cluster.Ok tt, s').
Proof.
  intros nodes s'.
  apply (deleteRedundantNodes_idempotent nodes "a" Samples.twoNetworks).
  - exact twoNetworks_keyed.
  - by vm_compute.
Defined.

Lemma Reconcile_network_converges_witness :
  exists s',
    Ethereum.Reconcile ("a", "net-a") Samples.twoNetworks
      = (Cluster.Ok tt, s') /\
    Ethereum.deployments s' !! ("a", "n1")
      = Some (Ethereum.deploymentOfNode Samples.networkA
                (Samples.plainNode "n1")).
Proof.
  destruct (Reconcile_network_converges ("a", "net-a") Samples.twoNetworks
              Samples.networkA) as (s' & Hrun & _ & _ & _ & _ & Hnodup).
  - exact twoNetworks_keyed.
  - reflexivity.
  - exists s'. split; [exact Hrun|].
    apply (Hnodup ltac:(apply (bool_decide_unpack _); by vm_compute)
             (Samples.plainNode "n1")).
    apply list_elem_of_here.
Defined.

Lemma Reconcile_network_idempotent_witness :
  let s' := (Ethereum.Reconcile ("a", "net-a") Samples.twoNetworks).2 in
  Ethereum.Reconcile ("a", "net-a") s' = (Cluster.Ok tt, s').
Proof.
  intros s'.
  apply (Reconcile_network_idempotent ("a", "net-a") Samples.twoNetworks).
  - exact twoNetworks_keyed.
  - exists Samples.networkA. reflexivity.
  - by vm_compute.
Defined.

Lemma Reconcile_network_absent_witness :
  Ethereum.Reconcile ("c", "net-c") Samples.twoNetworks
    = (Cluster.Ok tt, Samples.twoNetworks).
Proof.
  apply (Reconcile_network_absent ("c", "net-c") Samples.twoNetworks).
  reflexivity.
Defined.

Lemma Reconcile_node_frame_witness :
  let result :=
    PolkadotController.Reconcile Quantity.parseUnsigned
      NearClient.samplePathData Polkadot.sampleDefaults ∅ true 1
      ("default", "dot") (Samples.storeOf Samples.badCpuNode) in
  PolkadotController.pvcs result.2 !! ("default", "other") = None /\
  PolkadotController.statefulsets result.2 !! ("default", "other") = None.
Proof.
  destruct (Reconcile_node_frame Quantity.parseUnsigned
              NearClient.samplePathData Polkadot.sampleDefaults ∅ true 1
              ("default", "dot") (Samples.storeOf Samples.badCpuNode))
    as (_ & _ & Hother).
  destruct (Hother Samples.badCpuNode ("default", "other")) as [Hp Hs].
  - reflexivity.
  - discriminate.
  - split; [exact Hp|exact Hs].
Defined.

Lemma Reconcile_node_creates_children_witness :
  exists s',
    PolkadotController.Reconcile Quantity.parseUnsigned
      NearClient.samplePathData Polkadot.sampleDefaults ∅ true 1
      ("default", "dot") (Samples.storeOf Samples.smallNode)
      = (Cluster.Ok tt, s') /\
    is_Some (PolkadotController.pvcs s' !! ("default", "dot")) /\
    is_Some (PolkadotController.statefulsets s' !! ("default", "dot")).
Proof.
  eexists. split.
  - apply (Reconcile_node_creates_children Quantity.parseUnsigned
             NearClient.samplePathData Polkadot.sampleDefaults ∅ true 1
             ("default", "dot") (Samples.storeOf Samples.smallNode)
             Samples.smallNode (Samples.Gi 10) 2000000000 (Samples.Gi 2)
             4000000000 (Samples.Gi 4)); reflexivity.
  - split; apply (bool_decide_unpack _); by vm_compute.
Defined.

Lemma Reconcile_node_idempotent_witness :
  let reconcile :=
    PolkadotController.Reconcile Quantity.parseUnsigned
      NearClient.samplePathData Polkadot.sampleDefaults ∅ false 1
      ("default", "dot") in
  let s' := (reconcile (Samples.storeOf Polkadot.emptyNode)).2 in
  reconcile s' = (Cluster.Ok tt, s').
Proof.
  intros reconcile s'.
  apply (Reconcile_node_idempotent Quantity.parseUnsigned
           NearClient.samplePathData Polkadot.sampleDefaults ∅ false 1
           ("default", "dot") (Samples.storeOf Polkadot.emptyNode)).
  by vm_compute.
Defined.

Lemma Reconcile_node_foreign_claim_witness :
  PolkadotController.Reconcile Quantity.parseUnsigned
    NearClient.samplePathData Polkadot.sampleDefaults ∅ true 1
    ("default", "dot") Samples.foreignClaimStore
    = (Cluster.Err Cluster.AlreadyOwned, Samples.foreignClaimStore).
Proof.
  apply (Reconcile_node_foreign_claim Quantity.parseUnsigned
           NearClient.samplePathData Polkadot.sampleDefaults ∅ true 1
           ("default", "dot") Samples.foreignClaimStore
           Samples.badStorageNode Samples.foreignClaim ("default", "other")).
  - reflexivity.
  - reflexivity.
  - reflexivity.
  - discriminate.
Defined.

Lemma specStatefulSet_builds_witness :
  exists sts',
    PolkadotController.specStatefulSet Quantity.parseUnsigned
      NearClient.samplePathData Samples.smallNode
      (PolkadotController.mkStatefulSet "dot" "default" ∅ None 0
         PolkadotController.emptyStatefulSetSpec)
      "parity/polkadot:v0.9.9-1" "/polkadot" [] = Cluster.Ok sts' /\
    PolkadotController.Volumes (PolkadotController.StsSpec sts')
      = [PolkadotController.mkVolume "data" "dot"].
Proof.
  destruct (specStatefulSet_builds Quantity.parseUnsigned
              NearClient.samplePathData Samples.smallNode
              (PolkadotController.mkStatefulSet "dot" "default" ∅ None 0
                 PolkadotController.emptyStatefulSetSpec)
              "parity/polkadot:v0.9.9-1" "/polkadot" []
              2000000000 (Samples.Gi 2) 4000000000 (Samples.Gi 4))
    as (sts' & c & Hspec & _ & _ & _ & _ & _ & _ & _ & _ & Hvol & _).
  - reflexivity.
  - reflexivity.
  - reflexivity.
  - reflexivity.
  - exists sts'. split; [exact Hspec|exact Hvol].
Defined.

Lemma updateLabels_merges_witness :
  Polkadot.Labels (PolkadotController.updateLabels Samples.smallNode)
    !! "app.kubernetes.io/instance" = Some "dot".
Proof.
  destruct (updateLabels_merges Samples.smallNode) as (Hset & _).
  apply Hset. apply list_elem_of_further, list_elem_of_here.
Defined.

Lemma sampleDefaults_set : Polkadot.defaultsSet Polkadot.sampleDefaults.
Proof. repeat split; discriminate. Qed.

Lemma Default_completes_witness :
  Polkadot.fullySpecified
    (Polkadot.Default Polkadot.sampleDefaults Polkadot.emptyNode).
Proof.
  destruct (Default_completes Polkadot.sampleDefaults Polkadot.emptyNode)
    as (Hfull & _).
  - exact sampleDefaults_set.
  - exact Hfull.
Defined.

Lemma Default_fixpoint_witness :
  Polkadot.Default Polkadot.sampleDefaults Polkadot.explicitNode
    = Polkadot.explicitNode.
Proof.
  apply (Default_fixpoint Polkadot.sampleDefaults Polkadot.explicitNode).
  - exact sampleDefaults_set.
  - unfold Polkadot.fullySpecified. simpl.
    split; [discriminate|]. split; [discriminate|].
    split; [discriminate|]. split; [discriminate|].
    split; [discriminate|]. split; [discriminate|].
    split; discriminate.
Defined.

Lemma Image_override_or_pinned_witness :
  PolkadotClient.Image Samples.imageOverride
    = "registry.example/polkadot:test".
Proof.
  destruct (Image_override_or_pinned Samples.imageOverride)
    as (_ & _ & Hset & _).
  apply Hset; [reflexivity|discriminate].
Defined.

Lemma createArgsForClient_nil_iff_witness :
  Ethereum.createArgsForClient (Samples.plainNode "n1") "" = [].
Proof.
  apply (createArgsForClient_nil_iff (Samples.plainNode "n1") "").
  simpl. split; [reflexivity|]. split; [reflexivity|].
  split; [reflexivity|]. split; [reflexivity|]. split; [reflexivity|].
  split; [reflexivity|]. split; [reflexivity|]. split; [reflexivity|].
  split; [reflexivity|]. split; [reflexivity|]. split; [reflexivity|].
  split; [reflexivity|]. split; reflexivity.
Defined.

Lemma Reconcile_network_removes_undeclared_witness :
  let s1 := (Ethereum.Reconcile ("b", "net-b") Samples.twoNetworks).2 in
  let emptied :=
    Ethereum.mkNetwork "net-b" "b" (Ethereum.mkNetworkSpec "" []) in
  let updated :=
    Ethereum.mkStore (<[("b", "net-b") := emptied]> (Ethereum.networks s1))
      (Ethereum.deployments s1) in
  exists s2,
    Ethereum.Reconcile ("b", "net-b") updated = (Cluster.Ok tt, s2) /\
    Ethereum.deployments s2 !! ("b", "m1") = None.
Proof.
  intros s1 emptied updated.
  destruct (Reconcile_network_removes_undeclared ("b", "net-b")
              Samples.twoNetworks s1 Samples.networkB emptied
              (Samples.plainNode "m1"))
    as (s2 & Hrun & _ & Hgone & _).
  - exact twoNetworks_keyed.
  - reflexivity.
  - by vm_compute.
  - apply list_elem_of_here.
  - intros Hin. inversion Hin.
  - exists s2. split; [exact Hrun|exact Hgone].
Defined.

Lemma Reconcile_node_converges_witness :
  let result :=
    PolkadotController.Reconcile Quantity.parseUnsigned
      NearClient.samplePathData Polkadot.sampleDefaults ∅ false 1
      ("default", "dot") (Samples.storeOf Polkadot.emptyNode) in
  exists pvc,
    PolkadotController.pvcs result.2 !! ("default", "node") = Some pvc /\
    PolkadotController.Requests (PolkadotController.PVCSpec pvc)
      = {[ "storage" := Samples.Gi 20 ]}.
Proof.
  intros result.
  destruct (Reconcile_node_converges Quantity.parseUnsigned
              NearClient.samplePathData Polkadot.sampleDefaults ∅ false 1
              ("default", "dot") (Samples.storeOf Polkadot.emptyNode)
              result.2 Polkadot.emptyNode)
    as (q & c & m & cl & ml & pvc & sts
        & Hq & _ & _ & _ & _ & Hpvc & Hreq & _).
  - reflexivity.
  - by vm_compute.
  - exists pvc. split; [exact Hpvc|].
    rewrite Hreq. f_equal.
    assert (Some q = Some (Samples.Gi 20)) as [= ->]
      by (rewrite <- Hq; reflexivity).
    reflexivity.
Defined.
